(** * window_t: the base widget of the GUI toolkit (src/guiapi/src/window.cpp)

    A shallow embedding of [window_t] and of the operations defined in
    window.cpp.  Windows live in a heap indexed by their address; the static
    member [window_t::focused_ptr] is a field of the global state; calls into
    collaborators that are not part of window.cpp (the screen manager, the
    timer table, the display driver, the repaint request) are recorded, in
    program order, in a trace. *)

From Stdlib Require Import ZArith Bool List.
From stdpp Require Import base option gmap list.

Open Scope Z_scope.

(** ** Types declared in headers

    window.hpp and the headers it includes are not among the sources; the
    enumerations below list the enumerators that window.cpp names. *)

(** A [window_t *]; [nullptr] is [None] at type [option ptr]. *)
Abbreviation ptr := positive.

Inductive win_type_t := normal | dialog | strong_dialog | popup.

Inductive is_closed_on_click_t := no | yes.

(** The enumerators of [GUI_event_t] that window.cpp names. *)
Inductive GUI_event_t :=
  | CLICK | HOLD | FOCUS0 | FOCUS1 | ENC_CHANGE | ENC_UP | ENC_DN | BTN_DN | BTN_UP.

#[global] Instance win_type_eq_dec : EqDecision win_type_t.
Proof. solve_decision. Defined.
#[global] Instance closed_on_click_eq_dec : EqDecision is_closed_on_click_t.
Proof. solve_decision. Defined.
#[global] Instance GUI_event_eq_dec : EqDecision GUI_event_t.
Proof. solve_decision. Defined.

Definition color_t := Z.

(** [color_scheme] is used only through [Get(focused, shadowed)]; a scheme is
    represented by that function. *)
Definition color_scheme := bool -> bool -> color_t.

(** The interface of class [Rect16] as far as window.cpp uses it.  The class
    itself (Rect16.h) is not among the sources, so its member functions are
    operations of an interface.  [Rect16_ctor] is the default constructor
    [Rect16()], the default argument of [Invalidate] and [Validate], which
    is an empty rectangle ([Rect16_ctor_IsEmpty]); [Transform rc r] and
    [Intersection rc r] are the value of [rc] after [rc.Transform(r)] and the
    result of [rc.Intersection(r)]. *)
Class Rect16_api (Rect16 : Type) := {
  Rect16_ctor : Rect16;
  IsEmpty : Rect16 -> bool;
  Width : Rect16 -> Z;
  Height : Rect16 -> Z;
  HasIntersection : Rect16 -> Rect16 -> bool;
  Contain : Rect16 -> Rect16 -> bool;
  Intersection : Rect16 -> Rect16 -> Rect16;
  Transform : Rect16 -> Rect16 -> Rect16;
  Rect16_ctor_IsEmpty : IsEmpty Rect16_ctor = true
}.

(** The bit-field [flags] of a window: the members window.cpp reads or
    writes. *)
Record WindowFlags := mkFlags {
  type : win_type_t;
  visible : bool;
  enabled : bool;
  invalid : bool;
  color_scheme_background : bool;
  timer : bool;
  hidden_behind_dialog : bool;
  enforce_capture_when_not_visible : bool;
  shadow : bool;
  has_relative_subwins : bool;
  close_on_click : is_closed_on_click_t
}.

(** [flags(0)]: every bit cleared.  The constructor overwrites [type] and
    [close_on_click] before anything reads them. *)
Definition flags_zero : WindowFlags :=
  mkFlags normal false false false false false false false false false no.

Definition set_type (v : win_type_t) (f : WindowFlags) : WindowFlags :=
  mkFlags v (visible f) (enabled f) (invalid f) (color_scheme_background f)
    (timer f) (hidden_behind_dialog f) (enforce_capture_when_not_visible f)
    (shadow f) (has_relative_subwins f) (close_on_click f).
Definition set_visible (v : bool) (f : WindowFlags) : WindowFlags :=
  mkFlags (type f) v (enabled f) (invalid f) (color_scheme_background f)
    (timer f) (hidden_behind_dialog f) (enforce_capture_when_not_visible f)
    (shadow f) (has_relative_subwins f) (close_on_click f).
Definition set_enabled (v : bool) (f : WindowFlags) : WindowFlags :=
  mkFlags (type f) (visible f) v (invalid f) (color_scheme_background f)
    (timer f) (hidden_behind_dialog f) (enforce_capture_when_not_visible f)
    (shadow f) (has_relative_subwins f) (close_on_click f).
Definition set_invalid (v : bool) (f : WindowFlags) : WindowFlags :=
  mkFlags (type f) (visible f) (enabled f) v (color_scheme_background f)
    (timer f) (hidden_behind_dialog f) (enforce_capture_when_not_visible f)
    (shadow f) (has_relative_subwins f) (close_on_click f).
Definition set_color_scheme_background (v : bool) (f : WindowFlags) : WindowFlags :=
  mkFlags (type f) (visible f) (enabled f) (invalid f) v
    (timer f) (hidden_behind_dialog f) (enforce_capture_when_not_visible f)
    (shadow f) (has_relative_subwins f) (close_on_click f).
Definition set_timer (v : bool) (f : WindowFlags) : WindowFlags :=
  mkFlags (type f) (visible f) (enabled f) (invalid f) (color_scheme_background f)
    v (hidden_behind_dialog f) (enforce_capture_when_not_visible f)
    (shadow f) (has_relative_subwins f) (close_on_click f).
Definition set_hidden_behind_dialog (v : bool) (f : WindowFlags) : WindowFlags :=
  mkFlags (type f) (visible f) (enabled f) (invalid f) (color_scheme_background f)
    (timer f) v (enforce_capture_when_not_visible f)
    (shadow f) (has_relative_subwins f) (close_on_click f).
Definition set_enforce_capture (v : bool) (f : WindowFlags) : WindowFlags :=
  mkFlags (type f) (visible f) (enabled f) (invalid f) (color_scheme_background f)
    (timer f) (hidden_behind_dialog f) v
    (shadow f) (has_relative_subwins f) (close_on_click f).
Definition set_shadow (v : bool) (f : WindowFlags) : WindowFlags :=
  mkFlags (type f) (visible f) (enabled f) (invalid f) (color_scheme_background f)
    (timer f) (hidden_behind_dialog f) (enforce_capture_when_not_visible f)
    v (has_relative_subwins f) (close_on_click f).
Definition set_has_relative_subwins (v : bool) (f : WindowFlags) : WindowFlags :=
  mkFlags (type f) (visible f) (enabled f) (invalid f) (color_scheme_background f)
    (timer f) (hidden_behind_dialog f) (enforce_capture_when_not_visible f)
    (shadow f) v (close_on_click f).
Definition set_close_on_click (v : is_closed_on_click_t) (f : WindowFlags) : WindowFlags :=
  mkFlags (type f) (visible f) (enabled f) (invalid f) (color_scheme_background f)
    (timer f) (hidden_behind_dialog f) (enforce_capture_when_not_visible f)
    (shadow f) (has_relative_subwins f) v.

Section window.

Context {Rect16 : Type} `{!Rect16_api Rect16}.

(** The data members of [window_t]. *)
Record window_t := mkWindow {
  parent : option ptr;
  next : option ptr;
  rect : Rect16;
  flags : WindowFlags;
  color_back : color_t;
  pBackColorScheme : option color_scheme
}.

Definition with_flags (g : WindowFlags -> WindowFlags) (w : window_t) : window_t :=
  mkWindow (parent w) (next w) (rect w) (g (flags w)) (color_back w) (pBackColorScheme w).
Definition with_rect (r : Rect16) (w : window_t) : window_t :=
  mkWindow (parent w) (next w) r (flags w) (color_back w) (pBackColorScheme w).
Definition with_parent (p : option ptr) (w : window_t) : window_t :=
  mkWindow p (next w) (rect w) (flags w) (color_back w) (pBackColorScheme w).
Definition with_next (n : option ptr) (w : window_t) : window_t :=
  mkWindow (parent w) n (rect w) (flags w) (color_back w) (pBackColorScheme w).
Definition with_color_back (c : color_t) (w : window_t) : window_t :=
  mkWindow (parent w) (next w) (rect w) (flags w) c (pBackColorScheme w).
Definition with_scheme (c : option color_scheme) (w : window_t) : window_t :=
  mkWindow (parent w) (next w) (rect w) (flags w) (color_back w) c.

(** Calls that leave window.cpp, as they appear in the trace.  [EventLock]
    is the debug record built by [WindowEvent]; the trace keeps the receiver
    with it, so that the trace shows which window an event was delivered
    to. *)
Inductive call :=
  | gui_invalidate
  | gui_timers_delete_by_window (w : ptr)
  | Screens_Close
  | Screens_ResetTimeout
  | display_FillRect (r : Rect16) (c : color_t)
  | EventLock (receiver : ptr) (sender : option ptr) (event : GUI_event_t).

(** The state of the GUI: the live windows, the static [focused_ptr], and the
    trace of outgoing calls, oldest first. *)
Record gui := mkGui {
  heap : gmap ptr window_t;
  focused_ptr : option ptr;
  trace : list call
}.

Definition gui_init : gui := mkGui ∅ None [].

(** ** The monad of window operations

    An operation runs on a state and gives a result and a state, or [None]
    when it dereferences a pointer that is not a live window or when the
    recursion bound given to it is exhausted. *)
Definition M (A : Type) : Type := gui -> option (A * gui).

Definition ret {A} (a : A) : M A := fun s => Some (a, s).
Definition bind {A B} (m : M A) (k : A -> M B) : M B :=
  fun s => match m s with Some (a, s') => k a s' | None => None end.
Definition fail {A} : M A := fun _ => None.

Notation "'let!' x ':=' m 'in' k" := (bind m (fun x => k))
  (at level 10, x name, m at level 100, k at level 200, only parsing).
Notation "'do!' m 'in' k" := (bind m (fun _ => k))
  (at level 10, m at level 100, k at level 200, only parsing).

Definition load (w : ptr) : M window_t :=
  fun s => match heap s !! w with Some win => Some (win, s) | None => None end.
Definition update (w : ptr) (g : window_t -> window_t) : M unit :=
  fun s => match heap s !! w with
           | Some win => Some (tt, mkGui (<[w := g win]> (heap s)) (focused_ptr s) (trace s))
           | None => None
           end.
Definition emit (c : call) : M unit :=
  fun s => Some (tt, mkGui (heap s) (focused_ptr s) (trace s ++ [c])).
Definition get_focused : M (option ptr) := fun s => Some (focused_ptr s, s).
Definition set_focused (p : option ptr) : M unit :=
  fun s => Some (tt, mkGui (heap s) p (trace s)).
Definition get_heap : M (gmap ptr window_t) := fun s => Some (heap s, s).
Definition lift {A} (o : option A) : M A :=
  fun s => match o with Some a => Some (a, s) | None => None end.
Definition when (b : bool) (m : M unit) : M unit := if b then m else ret tt.

(** ** Observers *)

Definition IsVisible (w : window_t) : bool :=
  visible (flags w) && negb (hidden_behind_dialog (flags w)).
Definition HasVisibleFlag (w : window_t) : bool := visible (flags w).
Definition IsHiddenBehindDialog (w : window_t) : bool := hidden_behind_dialog (flags w).
Definition IsEnabled (w : window_t) : bool := enabled (flags w).
Definition IsInvalid (w : window_t) : bool := invalid (flags w).
Definition HasTimer (w : window_t) : bool := timer (flags w).
Definition GetType (w : window_t) : win_type_t := type (flags w).
Definition IsDialog (w : window_t) : bool :=
  bool_decide (GetType w = dialog) || bool_decide (GetType w = strong_dialog).
Definition HasEnforcedCapture (w : window_t) : bool :=
  enforce_capture_when_not_visible (flags w).
Definition IsCapturable (w : window_t) : bool := IsVisible w || HasEnforcedCapture w.
Definition IsShadowed (w : window_t) : bool := shadow (flags w).
Definition GetParent (w : window_t) : option ptr := parent w.

Definition GetFocusedWindow (s : gui) : option ptr := focused_ptr s.
Definition IsFocused (s : gui) (this : ptr) : bool :=
  bool_decide (GetFocusedWindow s = Some this).

(** ** Validation and invalidation *)

(** [window_t::validate] and [window_t::invalidate], the virtual workers as
    the base class defines them ("frame will validate/invalidate children"). *)
Definition validate (this : ptr) (validation_rect : Rect16) : M unit := ret tt.

Definition invalidate (this : ptr) (validation_rect : Rect16) : M unit :=
  update this (with_flags (set_invalid true)).

Definition Validate (this : ptr) (validation_rect : Rect16) : M unit :=
  let! w := load this in
  if IsEmpty validation_rect || HasIntersection (rect w) validation_rect
  then do! update this (with_flags (set_invalid false)) in
       validate this validation_rect
  else ret tt.

Definition Invalidate (this : ptr) (invalidation_rect : Rect16) : M unit :=
  let! w := load this in
  if IsEmpty invalidation_rect || HasIntersection (rect w) invalidation_rect
  then do! invalidate this invalidation_rect in
       emit gui_invalidate
  else ret tt.

(** [GetCapturedWindow]: [this] or [nullptr]. *)
Definition GetCapturedWindow (this : ptr) : M (option ptr) :=
  let! w := load this in
  ret (if HasVisibleFlag w then Some this else None).

Definition SetHasTimer (this : ptr) : M unit := update this (with_flags (set_timer true)).
Definition ClrHasTimer (this : ptr) : M unit := update this (with_flags (set_timer false)).
Definition Enable (this : ptr) : M unit := update this (with_flags (set_enabled true)).
Definition Disable (this : ptr) : M unit := update this (with_flags (set_enabled false)).
Definition SetEnforceCapture (this : ptr) : M unit :=
  update this (with_flags (set_enforce_capture true)).
Definition ClrEnforceCapture (this : ptr) : M unit :=
  update this (with_flags (set_enforce_capture false)).

(** Modelled from the spec: [SetRelativeSubwins] is defined in window.hpp,
    which is not among the sources.  By its name and by the comment at its
    only call ("parent has relative subwins, child must have them too") it
    sets [flags.has_relative_subwins]. *)
Definition SetRelativeSubwins (this : ptr) : M unit :=
  update this (with_flags (set_has_relative_subwins true)).

(** ** Events *)

(** [window_t::windowEvent].  [resend p sender event param] stands for the
    call [p->WindowEvent(sender, event, param)]. *)
Definition windowEvent (resend : ptr -> option ptr -> GUI_event_t -> Z -> M unit)
    (this : ptr) (sender : option ptr) (event : GUI_event_t) (param : Z) : M unit :=
  let! w := load this in
  match parent w with
  | Some p =>
      if bool_decide (event = CLICK) then
        if bool_decide (close_on_click (flags w) = yes)
        then emit Screens_Close
        else resend p (Some this) event param
      else ret tt
  | None => ret tt
  end.

(** [window_t::WindowEvent], with all receivers of base class [window_t].
    [fuel] bounds the number of times the event is sent on to a parent. *)
Fixpoint WindowEvent (fuel : nat) (this : ptr) (sender : option ptr)
    (event : GUI_event_t) (param : Z) : M unit :=
  do! emit (EventLock this sender event) in
  windowEvent
    (match fuel with
     | O => fun _ _ _ _ => fail
     | S n => WindowEvent n
     end) this sender event param.

(** ** Focus *)

Definition SetFocus (this : ptr) : M unit :=
  let! w := load this in
  if negb (IsVisible w) || negb (enabled (flags w)) then ret tt else
  let! f := get_focused in
  if bool_decide (f = Some this) then ret tt else
  do! match f with
      | Some fp =>
          do! Invalidate fp Rect16_ctor in
          WindowEvent 0 fp (Some fp) FOCUS0 0
      | None => ret tt
      end in
  do! set_focused (Some this) in
  do! Invalidate this Rect16_ctor in
  do! WindowEvent 0 this (Some this) FOCUS1 0 in
  emit gui_invalidate.

Definition ResetFocusedWindow : M unit := set_focused None.

(** ** Visibility *)

(** [ChildVisibilityChanged] does nothing in the base class. *)
Definition ChildVisibilityChanged (this child : ptr) : M unit :=
  do! load this in ret tt.

Definition notifyVisibilityChange (this : ptr) : M unit :=
  let! w := load this in
  match GetParent w with
  | Some p => ChildVisibilityChanged p this
  | None => ret tt
  end.

Definition Show (this : ptr) : M unit :=
  let! w := load this in
  if negb (visible (flags w)) then
    do! update this (with_flags (set_visible true)) in
    do! when (negb (hidden_behind_dialog (flags w))) (Invalidate this Rect16_ctor) in
    notifyVisibilityChange this
  else ret tt.

Definition Hide (this : ptr) : M unit :=
  let! w := load this in
  if visible (flags w) then
    do! update this (with_flags (set_visible false)) in
    do! when (negb (hidden_behind_dialog (flags w))) (Invalidate this Rect16_ctor) in
    notifyVisibilityChange this
  else ret tt.

Definition ShowAfterDialog (this : ptr) : M unit :=
  let! w := load this in
  if hidden_behind_dialog (flags w) then
    do! update this (with_flags (set_hidden_behind_dialog false)) in
    Invalidate this Rect16_ctor
  else ret tt.

Definition HideBehindDialog (this : ptr) : M unit :=
  let! w := load this in
  if negb (hidden_behind_dialog (flags w)) then
    do! update this (with_flags (set_hidden_behind_dialog true)) in
    Invalidate this Rect16_ctor
  else ret tt.

Definition Shadow (this : ptr) : M unit :=
  let! w := load this in
  if negb (shadow (flags w)) then
    do! update this (with_flags (set_shadow true)) in
    Invalidate this Rect16_ctor
  else ret tt.

Definition Unshadow (this : ptr) : M unit :=
  let! w := load this in
  if shadow (flags w) then
    do! update this (with_flags (set_shadow false)) in
    Invalidate this Rect16_ctor
  else ret tt.

(** ** Colours *)

Definition GetBackColor (s : gui) (this : ptr) (w : window_t) : color_t :=
  match color_scheme_background (flags w), pBackColorScheme w with
  | true, Some scheme => scheme (IsFocused s this) (IsShadowed w)
  | _, _ => color_back w
  end.

Definition SetBackColor (this : ptr) (clr : color_t) : M unit :=
  do! update this (with_color_back clr) in
  do! update this (with_flags (set_color_scheme_background false)) in
  Invalidate this Rect16_ctor.

Definition SetBackColor_scheme (this : ptr) (clr : color_scheme) : M unit :=
  do! update this (with_scheme (Some clr)) in
  do! update this (with_flags (set_color_scheme_background true)) in
  Invalidate this Rect16_ctor.

(** ** Rectangles *)

(** [window_t::TransformRect]; [this_rect] is the value of [GetRect()]. *)
Definition TransformRect_with (this_rect : Rect16) (w : window_t) (rc : Rect16) : Rect16 :=
  if has_relative_subwins (flags w) then Transform rc this_rect
  else Intersection rc this_rect.

(** [window_t::GetRect], which calls [TransformRect] on the parent, which
    calls [GetRect] there, and so on up to the window without parent.
    [fuel] bounds the number of parents visited. *)
Fixpoint GetRect (fuel : nat) (h : gmap ptr window_t) (this : ptr) : option Rect16 :=
  match h !! this with
  | None => None
  | Some w =>
      match GetParent w with
      | None => Some (rect w)
      | Some p =>
          match fuel with
          | O => None
          | S n =>
              match h !! p, GetRect n h p with
              | Some pw, Some this_rect => Some (TransformRect_with this_rect pw (rect w))
              | _, _ => None
              end
          end
      end
  end.

(** The number of parents above [this], when the chain of parent pointers
    ends at a window without parent in at most [fuel] steps and every window
    on it is live. *)
Fixpoint depth (fuel : nat) (h : gmap ptr window_t) (this : ptr) : option nat :=
  match h !! this with
  | None => None
  | Some w =>
      match GetParent w with
      | None => Some O
      | Some p =>
          match fuel with
          | O => None
          | S n => S <$> depth n h p
          end
      end
  end.

Definition TransformRect (fuel : nat) (h : gmap ptr window_t) (this : ptr) (rc : Rect16)
    : option Rect16 :=
  match h !! this, GetRect fuel h this with
  | Some w, Some this_rect => Some (TransformRect_with this_rect w rc)
  | _, _ => None
  end.

Definition GetRectWithoutTransformation (w : window_t) : Rect16 := rect w.

Definition SetRectWithoutTransformation (this : ptr) (rc : Rect16) : M unit :=
  update this (with_rect rc).

Definition SetRect (fuel : nat) (this : ptr) (rc : Rect16) : M unit :=
  let! w := load this in
  match GetParent w with
  | Some p =>
      let! h := get_heap in
      let! r := lift (TransformRect fuel h p rc) in
      update this (with_rect r)
  | None => update this (with_rect rc)
  end.

Definition SetNext (this : ptr) (nxt : option ptr) : M unit := update this (with_next nxt).
Definition SetParent (this : ptr) (par : option ptr) : M unit := update this (with_parent par).

(** ** Drawing *)

Definition unconditionalDraw (fuel : nat) (this : ptr) : M unit :=
  let! w := load this in
  let! h := get_heap in
  let! r := lift (GetRect fuel h this) in
  fun s => emit (display_FillRect r (GetBackColor s this w)) s.

Definition draw (fuel : nat) (this : ptr) : M unit :=
  let! w := load this in
  if IsInvalid w && negb (Width (rect w) =? 0) && negb (Height (rect w) =? 0) then
    do! when (IsVisible w) (unconditionalDraw fuel this) in
    Validate this Rect16_ctor
  else ret tt.

Definition Draw (fuel : nat) (this : ptr) : M unit := draw fuel this.

(** ** Sub-windows *)

(** [window_t::registerSubWin] and [window_t::unregisterSubWin] as the base
    class defines them: "window does not support subwindow elements, but
    window_frame does". *)
Definition registerSubWin (this win : ptr) (s : gui) : bool * gui := (false, s).
Definition unregisterSubWin (this win : ptr) (s : gui) : unit * gui := (tt, s).

Definition addInvalidationRect (this : ptr) (rc : Rect16) : M unit :=
  let! w := load this in
  when (negb (IsEmpty (rect w))) (Invalidate this Rect16_ctor).

Section subwin.

(** The final overriders of the virtual [registerSubWin] and
    [unregisterSubWin] for the parent a call is made on. *)
Variable v_registerSubWin : ptr -> ptr -> gui -> bool * gui.
Variable v_unregisterSubWin : ptr -> ptr -> gui -> unit * gui.

Definition RegisterSubWin (fuel : nat) (this win : ptr) : M bool :=
  let! h := get_heap in
  let! this_rect := lift (GetRect fuel h this) in
  let! win_rect := lift (GetRect fuel h win) in
  if negb (Contain this_rect win_rect) then ret false else
  let! w := load this in
  do! when (has_relative_subwins (flags w)) (SetRelativeSubwins win) in
  do! emit Screens_ResetTimeout in
  fun s => Some (v_registerSubWin this win s).

Definition UnregisterSubWin (fuel : nat) (this win : ptr) : M unit :=
  let! c := load win in
  if bool_decide (GetParent c = Some this) then
    let! h := get_heap in
    let! r := lift (GetRect fuel h win) in
    do! addInvalidationRect this r in
    do! (fun s => Some (v_unregisterSubWin this win s)) in
    emit Screens_ResetTimeout
  else ret tt.

(** ** Construction and destruction *)

Variable GuiDefaults_ColorBack : color_t.

(** The constructor, run on the storage at address [this]. *)
Definition window_t_ctor (fuel : nat) (this : ptr) (parent : option ptr) (rect : Rect16)
    (type : win_type_t) (close : is_closed_on_click_t) : M unit :=
  do! (fun s => Some (tt, mkGui
         (<[this := mkWindow parent None rect flags_zero GuiDefaults_ColorBack None]> (heap s))
         (focused_ptr s) (trace s))) in
  do! update this (with_flags (set_type type)) in
  do! update this (with_flags (set_close_on_click close)) in
  do! (if bool_decide (close = yes) then Enable this else Disable this) in
  do! update this (with_flags (set_visible true)) in
  do! Invalidate this Rect16_ctor in
  match parent with
  | Some p => do! RegisterSubWin fuel p this in ret tt
  | None => ret tt
  end.

(** The destructor body. *)
Definition window_t_dtor (fuel : nat) (this : ptr) : M unit :=
  do! emit (gui_timers_delete_by_window this) in
  let! f := get_focused in
  do! when (bool_decide (f = Some this)) (set_focused None) in
  let! w := load this in
  do! match GetParent w with
      | Some p => UnregisterSubWin fuel p this
      | None => ret tt
      end in
  emit Screens_ResetTimeout.

(** After the destructor the object is no longer live. *)
Definition release (this : ptr) : M unit :=
  fun s => Some (tt, mkGui (delete this (heap s)) (focused_ptr s) (trace s)).

Definition destroy (fuel : nat) (this : ptr) : M unit :=
  do! window_t_dtor fuel this in release this.

End subwin.

(** ** Programs over windows

    The calls a client of window.cpp can make, with every window of base
    class [window_t]; a state is reachable when such calls lead to it from the
    state without windows. *)
Inductive op :=
  | op_new (this : ptr) (parent : option ptr) (rect : Rect16)
      (type : win_type_t) (close : is_closed_on_click_t)
  | op_delete (this : ptr)
  | op_SetFocus (this : ptr)
  | op_ResetFocusedWindow
  | op_Show (this : ptr)
  | op_Hide (this : ptr)
  | op_ShowAfterDialog (this : ptr)
  | op_HideBehindDialog (this : ptr)
  | op_Shadow (this : ptr)
  | op_Unshadow (this : ptr)
  | op_Enable (this : ptr)
  | op_Disable (this : ptr)
  | op_Invalidate (this : ptr) (r : Rect16)
  | op_Validate (this : ptr) (r : Rect16)
  | op_Draw (this : ptr)
  | op_WindowEvent (this : ptr) (sender : option ptr) (event : GUI_event_t) (param : Z).

Definition run_op (ColorBack : color_t) (fuel : nat) (o : op) : M unit :=
  match o with
  | op_new this parent rect type close =>
      fun s => match heap s !! this with
               | Some _ => None
               | None => window_t_ctor registerSubWin ColorBack fuel this parent rect type close s
               end
  | op_delete this => destroy unregisterSubWin fuel this
  | op_SetFocus this => SetFocus this
  | op_ResetFocusedWindow => ResetFocusedWindow
  | op_Show this => Show this
  | op_Hide this => Hide this
  | op_ShowAfterDialog this => ShowAfterDialog this
  | op_HideBehindDialog this => HideBehindDialog this
  | op_Shadow this => Shadow this
  | op_Unshadow this => Unshadow this
  | op_Enable this => Enable this
  | op_Disable this => Disable this
  | op_Invalidate this r => Invalidate this r
  | op_Validate this r => Validate this r
  | op_Draw this => Draw fuel this
  | op_WindowEvent this sender event param => WindowEvent fuel this sender event param
  end.

Inductive reachable (ColorBack : color_t) : gui -> Prop :=
  | reachable_init : reachable ColorBack gui_init
  | reachable_step s fuel o s' :
      reachable ColorBack s ->
      run_op ColorBack fuel o s = Some (tt, s') ->
      reachable ColorBack s'.

Fixpoint run_ops (ColorBack : color_t) (fuel : nat) (l : list op) : M unit :=
  match l with
  | [] => ret tt
  | o :: l' => do! run_op ColorBack fuel o in run_ops ColorBack fuel l'
  end.

(** The calls a CLICK adds to the trace when it is delivered to [this] and
    bubbles up: every receiver on the way, and [Screens::Close] when the
    chain ends at a window that closes on click. *)
Inductive bubble (h : gmap ptr window_t) : ptr -> option ptr -> list call -> Prop :=
  | bubble_root this sender w :
      h !! this = Some w -> parent w = None ->
      bubble h this sender [EventLock this sender CLICK]
  | bubble_close this sender w p :
      h !! this = Some w -> parent w = Some p -> close_on_click (flags w) = yes ->
      bubble h this sender [EventLock this sender CLICK; Screens_Close]
  | bubble_up this sender w p l :
      h !! this = Some w -> parent w = Some p -> close_on_click (flags w) <> yes ->
      bubble h p (Some this) l ->
      bubble h this sender (EventLock this sender CLICK :: l).

(** The receivers recorded in a trace, in order. *)
Definition receivers (l : list call) : list ptr :=
  omap (fun c => match c with EventLock r _ _ => Some r | _ => None end) l.

(** [this] followed by its parents up to the window without parent. *)
Fixpoint ancestors (fuel : nat) (h : gmap ptr window_t) (this : ptr) : list ptr :=
  this ::
  match h !! this with
  | Some w =>
      match parent w, fuel with
      | Some p, S n => ancestors n h p
      | _, _ => []
      end
  | None => []
  end.

(** ** Siblings and ancestors *)

(** [window_t::GetNextEnabled]: the first enabled window after [this] in the
    list linked by [next], or [nullptr].  The outer [option] is [None] when
    a window on the way is not live or [fuel], which bounds the recursive
    calls, is exhausted. *)
Fixpoint GetNextEnabled (fuel : nat) (h : gmap ptr window_t) (this : ptr)
    : option (option ptr) :=
  match h !! this with
  | None => None
  | Some w =>
      match next w with
      | Some nx =>
          match h !! nx with
          | None => None
          | Some nw =>
              if IsEnabled nw then Some (Some nx)
              else match fuel with
                   | O => None
                   | S n => GetNextEnabled n h nx
                   end
          end
      | None => Some None
      end
  end.

(** The loop of [window_t::IsChildOf], entered with [par]; [fuel] bounds the
    number of times [par = par->GetParent()] is run. *)
Fixpoint IsChildOf_loop (fuel : nat) (h : gmap ptr window_t) (par win : option ptr)
    : option bool :=
  match par with
  | None => Some false
  | Some p =>
      if bool_decide (par = win) then Some true
      else match fuel with
           | O => None
           | S n =>
               match h !! p with
               | None => None
               | Some pw => IsChildOf_loop n h (GetParent pw) win
               end
           end
  end.

Definition IsChildOf (fuel : nat) (h : gmap ptr window_t) (this : ptr) (win : option ptr)
    : option bool :=
  match h !! this with
  | None => None
  | Some w => IsChildOf_loop fuel h (GetParent w) win
  end.

(** The windows after [this] in the list linked by [next], when the list
    ends within [fuel] steps and every window on it is live. *)
Fixpoint following (fuel : nat) (h : gmap ptr window_t) (this : ptr) : option (list ptr) :=
  match h !! this with
  | None => None
  | Some w =>
      match next w with
      | None => Some []
      | Some nx =>
          match fuel with
          | O => None
          | S n => cons nx <$> following n h nx
          end
      end
  end.

(** The window at [x] is live and enabled. *)
Definition enabled_at (h : gmap ptr window_t) (x : ptr) : bool :=
  match h !! x with
  | Some w => IsEnabled w
  | None => false
  end.

(** ** Auxiliary notions for the statements *)

(** [s] with [g] applied to the window [w] stored at [this] and [l] added to
    the trace. *)
Definition touched (s : gui) (this : ptr) (g : window_t -> window_t) (w : window_t)
    (l : list call) : gui :=
  mkGui (<[this := g w]> (heap s)) (focused_ptr s) (trace s ++ l).

(** [s] with [l] added to the trace. *)
Definition traced (s : gui) (l : list call) : gui :=
  mkGui (heap s) (focused_ptr s) (trace s ++ l).

(** The condition under which [draw] does anything. *)
Definition drawable (w : window_t) : bool :=
  IsInvalid w && negb (Width (rect w) =? 0) && negb (Height (rect w) =? 0).

(** The window the constructor has built when it reaches
    the call of [RegisterSubWin] on its parent. *)
Definition constructed (ColorBack : color_t) (parent : option ptr) (rect : Rect16)
    (type : win_type_t) (close : is_closed_on_click_t) : window_t :=
  mkWindow parent None rect
    (mkFlags type true (bool_decide (close = yes)) true false false false false false
       false close)
    ColorBack None.

(** The parent given to a constructor is null, or its chain of parents is
    live and short enough for [fuel]. *)
Definition chain_ok (fuel : nat) (h : gmap ptr window_t) (parent : option ptr) : bool :=
  match parent with
  | None => true
  | Some p =>
      match depth fuel h p with
      | Some n => bool_decide (n < fuel)%nat
      | None => false
      end
  end.

(** An operation leaves the focused pointer alone and destroys no
    window. *)
Definition keeps {A} (m : M A) : Prop :=
  forall s a s', m s = Some (a, s') ->
    focused_ptr s' = focused_ptr s
    /\ forall x, is_Some (heap s !! x) -> is_Some (heap s' !! x).

(** The focused pointer is null or points to a live window. *)
Definition focus_live (s : gui) : Prop :=
  forall f, focused_ptr s = Some f -> is_Some (heap s !! f).

(** An overrider of [registerSubWin] keeps the window [win] live and does not
    clear the flag [f] of it. *)
Definition hook_keeps (f : WindowFlags -> bool) (hook : ptr -> ptr -> gui -> bool * gui)
    : Prop :=
  forall this win s w, heap s !! win = Some w ->
    exists w', heap (snd (hook this win s)) !! win = Some w'
               /\ (f (flags w) = true -> f (flags w') = true)
               /\ (f (flags w) = false -> f (flags w') = false).

End window.

(** ** A rectangle type for examples *)

Module Geom.

(** Modelled from the spec: class [Rect16] (Rect16.h) is not among the
    sources.  A rectangle is its top-left corner, width and height; the
    predicates follow the words of the specification: a rectangle is empty
    when it has zero area, two rectangles intersect when they share a point,
    and one contains another when the other lies fully inside it. *)
Record Rect16 := mkRect { Left : Z; Top : Z; W : Z; H : Z }.

Definition IsEmpty (r : Rect16) : bool := (W r =? 0) || (H r =? 0).

Definition HasIntersection (a b : Rect16) : bool :=
  negb (IsEmpty a) && negb (IsEmpty b)
  && (Left a <? Left b + W b) && (Left b <? Left a + W a)
  && (Top a <? Top b + H b) && (Top b <? Top a + H a).

Definition Contain (a b : Rect16) : bool :=
  (Left a <=? Left b) && (Left b + W b <=? Left a + W a)
  && (Top a <=? Top b) && (Top b + H b <=? Top a + H a).

Definition Intersection (a b : Rect16) : Rect16 :=
  if HasIntersection a b then
    let l := Z.max (Left a) (Left b) in
    let t := Z.max (Top a) (Top b) in
    mkRect l t (Z.min (Left a + W a) (Left b + W b) - l)
               (Z.min (Top a + H a) (Top b + H b) - t)
  else mkRect 0 0 0 0.

Definition Transform (rc r : Rect16) : Rect16 :=
  Intersection (mkRect (Left rc + Left r) (Top rc + Top r) (W rc) (H rc)) r.

#[global] Instance api : Rect16_api Rect16 :=
  Build_Rect16_api Rect16 (mkRect 0 0 0 0) IsEmpty W H
    HasIntersection Contain Intersection Transform eq_refl.

End Geom.

(** ** Example states *)

Module Ex.

Abbreviation R := Geom.Rect16.

Definition screen_rect : R := Geom.mkRect 0 0 240 320.
Definition button_rect : R := Geom.mkRect 10 10 100 40.

(** Flags of a window that is visible, enabled and valid. *)
Definition plain (close : is_closed_on_click_t) : WindowFlags :=
  mkFlags normal true true false false false false false false false close.

(** A screen at address 1 holding a button at address 2; nothing focused,
    nothing to repaint. *)
Definition screen : window_t (Rect16:=R) :=
  mkWindow None None screen_rect (plain no) 0 None.
Definition button : window_t (Rect16:=R) :=
  mkWindow (Some 1%positive) None button_rect (plain no) 0 None.
Definition s_two : gui (Rect16:=R) :=
  mkGui (<[2%positive := button]> (<[1%positive := screen]> ∅)) None [].

(** The same with the button focused. *)
Definition s_focus : gui (Rect16:=R) :=
  mkGui (heap s_two) (Some 2%positive) [].

(** A rectangle that lies outside the screens of the examples. *)
Definition outside_rect : R := Geom.mkRect 300 300 10 10.

(** A rectangle of zero area far from the screen. *)
Definition far_empty : R := Geom.mkRect 500 500 0 0.

(** An overrider of [registerSubWin] that accepts every window, as a frame
    does; the list of a frame is not a member of [window_t]. *)
Definition accept (this win : ptr) (s : gui (Rect16:=R)) : bool * gui := (true, s).

(** A session: a screen, a button on it that closes on click, focus on the
    button. *)
Definition session : list (op (Rect16:=R)) :=
  [op_new 1%positive None screen_rect normal no;
   op_new 2%positive (Some 1%positive) button_rect normal yes;
   op_SetFocus 2%positive].
Definition s_session : gui (Rect16:=R) :=
  match run_ops 0 2 session gui_init with
  | Some (_, s) => s
  | None => gui_init
  end.

(** A screen at address 1 with three windows in a row, linked by [next]:
    2 (enabled), 3 (disabled), 4 (enabled). *)
Definition item (enabled : bool) (nxt : option ptr) : window_t (Rect16:=R) :=
  mkWindow (Some 1%positive) nxt button_rect (set_enabled enabled (plain no)) 0 None.
Definition s_row : gui (Rect16:=R) :=
  mkGui (<[4%positive := item true None]>
           (<[3%positive := item false (Some 4%positive)]>
              (<[2%positive := item true (Some 3%positive)]>
                 (<[1%positive := screen]> ∅)))) None [].

(** A screen whose sub-windows have coordinates relative to it, with a
    button. *)
Definition rel_screen : window_t (Rect16:=R) :=
  mkWindow None None (Geom.mkRect 20 30 200 200)
    (set_has_relative_subwins true (plain no)) 0 None.
Definition s_rel : gui (Rect16:=R) :=
  mkGui (<[2%positive := button]> (<[1%positive := rel_screen]> ∅)) None [].

(** The screen alone, visible and waiting for a repaint, and the state
    after it has been painted. *)
Definition dirty_screen : window_t (Rect16:=R) :=
  mkWindow None None screen_rect (set_invalid true (plain no)) 0 None.
Definition s_dirty : gui (Rect16:=R) :=
  mkGui (<[1%positive := dirty_screen]> ∅) None [].
Definition s_painted : gui (Rect16:=R) :=
  mkGui (<[1%positive := screen]> ∅) None [display_FillRect screen_rect 0].

(** [s_focus] after the focus has moved from the button to the screen. *)
Definition s_refocused : gui (Rect16:=R) :=
  mkGui (<[1%positive := with_flags (set_invalid true) screen]>
           (<[2%positive := with_flags (set_invalid true) button]> (heap s_two)))
    (Some 1%positive)
    [gui_invalidate; EventLock 2%positive (Some 2%positive) FOCUS0;
     gui_invalidate; EventLock 1%positive (Some 1%positive) FOCUS1;
     gui_invalidate].

(** The screen alone, hidden and waiting for a repaint. *)
Definition hidden_dirty : window_t (Rect16:=R) :=
  mkWindow None None screen_rect (set_invalid true (set_visible false (plain no))) 0 None.
Definition s_hidden : gui (Rect16:=R) :=
  mkGui (<[1%positive := hidden_dirty]> ∅) None [].

End Ex.

(** * Properties *)

Section proofs.

Context {Rect16 : Type} `{!Rect16_api Rect16}.

Implicit Types (s : gui (Rect16:=Rect16)) (w : window_t (Rect16:=Rect16)).
Implicit Types (h : gmap ptr (window_t (Rect16:=Rect16))) (r : Rect16).
Implicit Types (this win p : ptr).

Lemma gui_eta s : mkGui (heap s) (focused_ptr s) (trace s) = s.
Proof. by destruct s. Qed.

Lemma Invalidate_live this r s w :
  heap s !! this = Some w ->
  Invalidate this r s =
    Some (tt, if IsEmpty r || HasIntersection (rect w) r
              then touched s this (with_flags (set_invalid true)) w [gui_invalidate]
              else s).
Proof.
  intros Hw. unfold Invalidate, invalidate, bind, load, update, emit, ret.
  rewrite Hw. destruct (IsEmpty r || HasIntersection (rect w) r); [|done].
  by rewrite Hw.
Qed.

Lemma Invalidate_default this s w :
  heap s !! this = Some w ->
  Invalidate this Rect16_ctor s =
    Some (tt, touched s this (with_flags (set_invalid true)) w [gui_invalidate]).
Proof.
  intros Hw. rewrite (Invalidate_live _ _ _ _ Hw).
  by rewrite Rect16_ctor_IsEmpty.
Qed.

Lemma Validate_default this s w :
  heap s !! this = Some w ->
  Validate this Rect16_ctor s =
    Some (tt, touched s this (with_flags (set_invalid false)) w []).
Proof.
  intros Hw. unfold Validate, validate, bind, load, update, ret.
  rewrite Hw, Rect16_ctor_IsEmpty. cbn. rewrite Hw.
  unfold touched. by rewrite app_nil_r.
Qed.

(** C3 (as amended).  [Invalidate(r)] on a live window marks it dirty and
    requests a repaint exactly when [r] is empty or intersects the window's
    own rectangle; otherwise the state, and so the invalid flag and the
    trace, is unchanged. *)
Theorem Invalidate_iff_empty_or_intersects this r s w :
  heap s !! this = Some w ->
  exists s', Invalidate this r s = Some (tt, s') /\
    if IsEmpty r || HasIntersection (rect w) r
    then heap s' !! this = Some (with_flags (set_invalid true) w)
         /\ (forall w', heap s' !! this = Some w' -> IsInvalid w' = true)
         /\ trace s' = trace s ++ [gui_invalidate]
    else s' = s.
Proof.
  intros Hw. rewrite (Invalidate_live _ _ _ _ Hw). eexists; split; [done|].
  destruct (IsEmpty r || HasIntersection (rect w) r); [|done].
  cbn. rewrite lookup_insert_eq. split_and!; [done| |done].
  by intros w' [= <-].
Qed.

(** *** Drawing *)

Lemma Draw_live fuel this s w r :
  heap s !! this = Some w ->
  GetRect fuel (heap s) this = Some r ->
  Draw fuel this s =
    Some (tt, if drawable w
              then touched s this (with_flags (set_invalid false)) w
                     (if IsVisible w then [display_FillRect r (GetBackColor s this w)] else [])
              else s).
Proof.
  intros Hw Hr. unfold Draw, draw, drawable, bind, load. rewrite Hw.
  destruct (IsInvalid w && _ && _); [|done].
  unfold when, unconditionalDraw, bind, load, get_heap, lift, emit, ret.
  destruct (IsVisible w).
  - rewrite Hw, Hr.
    erewrite Validate_default by (cbn; exact Hw).
    unfold touched; cbn. by rewrite app_nil_r.
  - by rewrite (Validate_default _ _ _ Hw).
Qed.

(** C4 (as amended).  [Draw] leaves alone a window that is not invalid or
    whose rectangle has zero width or height.  On an invalid window of
    non-zero width and height it calls [unconditionalDraw] (one
    [display::FillRect] of the window's rectangle) exactly when the window is
    effectively visible, and it clears the invalid flag whether the window is
    visible or not. *)
Theorem Draw_repaints_visible_validates_invalid fuel this s w r :
  heap s !! this = Some w ->
  GetRect fuel (heap s) this = Some r ->
  exists s', Draw fuel this s = Some (tt, s') /\
    if IsInvalid w && negb (Width (rect w) =? 0) && negb (Height (rect w) =? 0)
    then heap s' !! this = Some (with_flags (set_invalid false) w)
         /\ trace s' = trace s ++
              (if IsVisible w then [display_FillRect r (GetBackColor s this w)] else [])
    else s' = s.
Proof.
  intros Hw Hr. rewrite (Draw_live _ _ _ _ _ Hw Hr). eexists; split; [done|].
  unfold drawable. destruct (IsInvalid w && _ && _); [|done].
  cbn. by rewrite lookup_insert_eq.
Qed.

(** *** Visibility *)

Lemma ShowAfterDialog_live this s w :
  heap s !! this = Some w ->
  ShowAfterDialog this s =
    Some (tt, if hidden_behind_dialog (flags w)
              then touched s this
                     (fun w => with_flags (set_invalid true)
                                 (with_flags (set_hidden_behind_dialog false) w))
                     w [gui_invalidate]
              else s).
Proof.
  intros Hw. unfold ShowAfterDialog, bind, load, update. rewrite Hw.
  destruct (hidden_behind_dialog (flags w)); [|done]. rewrite Hw.
  erewrite Invalidate_default by (cbn; apply lookup_insert_eq).
  unfold touched; cbn. by rewrite insert_insert_eq.
Qed.

Lemma HideBehindDialog_live this s w :
  heap s !! this = Some w ->
  HideBehindDialog this s =
    Some (tt, if hidden_behind_dialog (flags w)
              then s
              else touched s this
                     (fun w => with_flags (set_invalid true)
                                 (with_flags (set_hidden_behind_dialog true) w))
                     w [gui_invalidate]).
Proof.
  intros Hw. unfold HideBehindDialog, bind, load, update. rewrite Hw.
  destruct (hidden_behind_dialog (flags w)); [done|]. cbn. rewrite Hw.
  erewrite Invalidate_default by (cbn; apply lookup_insert_eq).
  unfold touched; cbn. by rewrite insert_insert_eq.
Qed.

(** C8.  A window is effectively visible exactly when its visible flag is
    set and its hidden-behind-dialog flag is clear.  [ShowAfterDialog] and
    [HideBehindDialog] leave the visible flag as it was: after the first the
    window is effectively visible exactly when its visible flag is set, after
    the second it is not effectively visible. *)
Theorem IsVisible_flag_and_not_behind_dialog this s w :
  heap s !! this = Some w ->
  (IsVisible w = true <-> HasVisibleFlag w = true /\ IsHiddenBehindDialog w = false)
  /\ (exists s1 w1, ShowAfterDialog this s = Some (tt, s1)
        /\ heap s1 !! this = Some w1
        /\ HasVisibleFlag w1 = HasVisibleFlag w
        /\ IsHiddenBehindDialog w1 = false
        /\ IsVisible w1 = HasVisibleFlag w)
  /\ (exists s2 w2, HideBehindDialog this s = Some (tt, s2)
        /\ heap s2 !! this = Some w2
        /\ HasVisibleFlag w2 = HasVisibleFlag w
        /\ IsHiddenBehindDialog w2 = true
        /\ IsVisible w2 = false).
Proof.
  intros Hw. split_and!.
  - unfold IsVisible, HasVisibleFlag, IsHiddenBehindDialog.
    rewrite andb_true_iff, negb_true_iff. done.
  - rewrite (ShowAfterDialog_live _ _ _ Hw).
    unfold IsVisible, HasVisibleFlag, IsHiddenBehindDialog.
    destruct (hidden_behind_dialog (flags w)) eqn:Hd.
    + eexists _, _. split; [done|]. cbn. rewrite lookup_insert_eq.
      split; [done|]. cbn. by rewrite andb_true_r.
    + exists s, w. rewrite Hd. by rewrite andb_true_r.
  - rewrite (HideBehindDialog_live _ _ _ Hw).
    unfold IsVisible, HasVisibleFlag, IsHiddenBehindDialog.
    destruct (hidden_behind_dialog (flags w)) eqn:Hd.
    + exists s, w. rewrite Hd. by rewrite andb_false_r.
    + eexists _, _. split; [done|]. cbn. rewrite lookup_insert_eq.
      split; [done|]. cbn. by rewrite andb_false_r.
Qed.

(** *** Focus *)

(** C9.  [SetFocus] on a window that is not effectively visible, or not
    enabled, or already focused, returns with the state as it was: the
    focused pointer, every window's flags and the trace (so no FOCUS0 or
    FOCUS1 is delivered and no repaint is requested) are unchanged. *)
Theorem SetFocus_noop this s w :
  heap s !! this = Some w ->
  IsVisible w = false \/ IsEnabled w = false \/ IsFocused s this = true ->
  SetFocus this s = Some (tt, s).
Proof.
  intros Hw Hc. unfold SetFocus, bind, load, get_focused. rewrite Hw.
  unfold IsEnabled, IsFocused, GetFocusedWindow in Hc.
  destruct (IsVisible w); [|done].
  destruct (enabled (flags w)); [|done]. cbn.
  destruct Hc as [?|[?|Hf]]; [done..|]. by rewrite Hf.
Qed.

(** *** Chains of parents *)

Lemma depth_live fuel h this n : depth fuel h this = Some n -> is_Some (h !! this).
Proof. destruct fuel; simpl; destruct (h !! this); eauto; done. Qed.

Lemma depth_enough fuel fuel' h this n :
  depth fuel h this = Some n -> (n <= fuel')%nat -> depth fuel' h this = Some n.
Proof.
  revert fuel' this n. induction fuel as [|k IH]; intros fuel' this n; simpl.
  - destruct (h !! this) as [w|] eqn:Hw; [|done].
    destruct (GetParent w) eqn:Hp; [done|]. intros [= <-] _.
    destruct fuel'; simpl; by rewrite Hw, Hp.
  - destruct (h !! this) as [w|] eqn:Hw; [|done].
    destruct (GetParent w) eqn:Hp.
    + destruct (depth k h p) as [m|] eqn:Hd; [|done]. intros [= <-] Hle.
      destruct fuel' as [|k']; [lia|]. simpl. rewrite Hw, Hp.
      rewrite (IH k' _ _ Hd); [done|lia].
    + intros [= <-] _. destruct fuel'; simpl; by rewrite Hw, Hp.
Qed.

Lemma depth_insert_fresh fuel h this w0 p n :
  h !! this = None -> depth fuel h p = Some n ->
  depth fuel (<[this := w0]> h) p = Some n.
Proof.
  intros Hf. revert p n. induction fuel as [|k IH]; intros p n; simpl.
  - destruct (h !! p) as [w|] eqn:Hw; [|done].
    rewrite lookup_insert_ne by congruence. by rewrite Hw.
  - destruct (h !! p) as [w|] eqn:Hw; [|done].
    rewrite lookup_insert_ne by congruence. rewrite Hw.
    destruct (GetParent w) as [q|]; [|done].
    destruct (depth k h q) as [m|] eqn:Hd; [|done].
    by rewrite (IH _ _ Hd).
Qed.

Lemma depth_GetRect fuel h this n :
  depth fuel h this = Some n -> is_Some (GetRect fuel h this).
Proof.
  revert this n. induction fuel as [|k IH]; intros this n; simpl.
  - destruct (h !! this) as [w|]; [|done]. destruct (GetParent w); [done|eauto].
  - destruct (h !! this) as [w|]; [|done].
    destruct (GetParent w) as [p|]; [|eauto].
    destruct (depth k h p) as [m|] eqn:Hd; [|done]. intros _.
    destruct (depth_live _ _ _ _ Hd) as [pw Hpw].
    destruct (IH _ _ Hd) as [pr Hpr]. rewrite Hpw, Hpr. eauto.
Qed.

Lemma GetRect_live fuel h this r : GetRect fuel h this = Some r -> is_Some (h !! this).
Proof. destruct fuel; simpl; destruct (h !! this); eauto; done. Qed.

(** [GetRect] of a window with a parent is the parent's [TransformRect] of
    the window's own rectangle. *)
Lemma GetRect_parent fuel h this w p :
  h !! this = Some w -> GetParent w = Some p ->
  GetRect (S fuel) h this = TransformRect fuel h p (rect w).
Proof. intros Hw Hp. simpl. by rewrite Hw, Hp. Qed.

(** *** Registration of sub-windows *)

Lemma RegisterSubWin_live hook fuel this win s pr cr pw cw :
  GetRect fuel (heap s) this = Some pr ->
  GetRect fuel (heap s) win = Some cr ->
  heap s !! this = Some pw ->
  heap s !! win = Some cw ->
  RegisterSubWin hook fuel this win s =
    Some (if Contain pr cr
          then hook this win
                 (if has_relative_subwins (flags pw)
                  then touched s win (with_flags (set_has_relative_subwins true)) cw
                         [Screens_ResetTimeout]
                  else traced s [Screens_ResetTimeout])
          else (false, s)).
Proof.
  intros Hpr Hcr Hpw Hcw.
  unfold RegisterSubWin, bind, get_heap, lift, load, when, SetRelativeSubwins,
    update, emit, ret.
  rewrite Hpr, Hcr. destruct (Contain pr cr); [|done]. cbn. rewrite Hpw.
  destruct (has_relative_subwins (flags pw)); [|done]. by rewrite Hcw.
Qed.

(** C5.  [RegisterSubWin] returns true only if the rectangle of the child
    ([win.GetRect()]) is contained in the rectangle of the parent
    ([GetRect()]).  When it is not contained the call returns false and the
    state is unchanged: the overrider of [registerSubWin] is not reached.
    When it is contained the result is the one of that overrider. *)
Theorem RegisterSubWin_needs_containment hook fuel this win s pr cr :
  GetRect fuel (heap s) this = Some pr ->
  GetRect fuel (heap s) win = Some cr ->
  (Contain pr cr = false -> RegisterSubWin hook fuel this win s = Some (false, s))
  /\ (forall s', RegisterSubWin hook fuel this win s = Some (true, s') ->
                 Contain pr cr = true)
  /\ (Contain pr cr = true ->
      exists s1, RegisterSubWin hook fuel this win s = Some (hook this win s1)).
Proof.
  intros Hpr Hcr.
  destruct (GetRect_live _ _ _ _ Hpr) as [pw Hpw].
  destruct (GetRect_live _ _ _ _ Hcr) as [cw Hcw].
  rewrite (RegisterSubWin_live hook _ _ _ _ _ _ _ _ Hpr Hcr Hpw Hcw).
  destruct (Contain pr cr); split_and!; try done.
  intros _. eauto.
Qed.

(** *** Construction *)

Lemma ctor_eq hook cb fuel this parent r ty cl s :
  window_t_ctor hook cb fuel this parent r ty cl s =
    match parent with
    | Some p =>
        match RegisterSubWin hook fuel p this
                (mkGui (<[this := constructed cb parent r ty cl]> (heap s))
                   (focused_ptr s) (trace s ++ [gui_invalidate])) with
        | Some (_, s') => Some (tt, s')
        | None => None
        end
    | None =>
        Some (tt, mkGui (<[this := constructed cb parent r ty cl]> (heap s))
                    (focused_ptr s) (trace s ++ [gui_invalidate]))
    end.
Proof.
  unfold window_t_ctor, bind at 1 2 3 4 5.
  unfold update at 1; cbn [heap focused_ptr trace]; rewrite lookup_insert_eq, insert_insert_eq.
  unfold update at 1; cbn [heap focused_ptr trace]; rewrite lookup_insert_eq, insert_insert_eq.
  assert (forall s0 : gui (Rect16:=Rect16),
    (if bool_decide (cl = yes) then Enable this else Disable this) s0 =
    update this (with_flags (set_enabled (bool_decide (cl = yes)))) s0) as ->
    by (by destruct cl).
  unfold update at 1; cbn [heap focused_ptr trace]; rewrite lookup_insert_eq, insert_insert_eq.
  unfold update at 1; cbn [heap focused_ptr trace]; rewrite lookup_insert_eq, insert_insert_eq.
  unfold bind.
  erewrite Invalidate_default by (cbn; apply lookup_insert_eq).
  unfold touched; cbn [heap focused_ptr trace]. rewrite insert_insert_eq.
  destruct parent; done.
Qed.

(** The constructor returns, and a flag of the new window that the
    overrider of [registerSubWin] keeps is, at the end, as the constructor
    set it. *)
Lemma ctor_live (f : WindowFlags -> bool) hook cb fuel this parent r ty cl s :
  (forall v fl, f (set_has_relative_subwins v fl) = f fl) ->
  heap s !! this = None ->
  chain_ok fuel (heap s) parent = true ->
  hook_keeps f hook ->
  exists s' w',
    window_t_ctor hook cb fuel this parent r ty cl s = Some (tt, s')
    /\ heap s' !! this = Some w'
    /\ f (flags w') = f (flags (constructed cb parent r ty cl))
    /\ match parent with
       | Some p =>
           exists b, RegisterSubWin hook fuel p this
                       (touched s this id (constructed cb parent r ty cl) [gui_invalidate])
                     = Some (b, s')
       | None => s' = touched s this id (constructed cb parent r ty cl) [gui_invalidate]
       end.
Proof.
  intros Hf Hfresh Hok Hk. rewrite ctor_eq. unfold touched, id.
  destruct parent as [p|]; cycle 1.
  { eexists _, _. split; [done|]. cbn. by rewrite lookup_insert_eq. }
  set (c := constructed cb (Some p) r ty cl).
  set (s0 := mkGui (<[this := c]> (heap s)) (focused_ptr s) (trace s ++ [gui_invalidate])).
  unfold chain_ok in Hok.
  destruct (depth fuel (heap s) p) as [n|] eqn:Hd; [|done].
  apply bool_decide_eq_true in Hok.
  destruct fuel as [|k]; [lia|].
  pose proof (depth_insert_fresh _ _ _ c _ _ Hfresh Hd) as Hd0.
  destruct (depth_GetRect _ _ _ _ Hd0) as [pr Hpr].
  destruct (depth_live _ _ _ _ Hd0) as [pw Hpw].
  assert (depth (S k) (heap s0) this = Some (S n)) as Hdt.
  { simpl. rewrite lookup_insert_eq. cbn.
    rewrite (depth_enough _ k _ _ _ Hd0); [done|lia]. }
  destruct (depth_GetRect _ _ _ _ Hdt) as [cr Hcr].
  assert (heap s0 !! this = Some c) as Hc by apply lookup_insert_eq.
  rewrite (RegisterSubWin_live hook _ _ _ s0 _ _ _ _ Hpr Hcr Hpw Hc).
  destruct (Contain pr cr).
  - match goal with |- context [hook p this ?x] => set (s1 := x) end.
    assert (exists c1, heap s1 !! this = Some c1 /\ f (flags c1) = f (flags c))
      as (c1 & Hc1 & Hfc1).
    { unfold s1. destruct (has_relative_subwins (flags pw)).
      - eexists. split; [apply lookup_insert_eq|]. apply Hf.
      - by exists c. }
    destruct (Hk p this s1 c1 Hc1) as (w' & Hw' & Ht & Hfa).
    destruct (hook p this s1) as [b s'] eqn:Hh. cbn in Hw'.
    exists s', w'. split_and!; [done|done| |by eexists].
    rewrite <- Hfc1. destruct (f (flags c1)); [by apply Ht|by apply Hfa].
  - exists s0, c. split_and!; [done|done|done|by eexists].
Qed.

(** C6 (as amended).  The constructor, run on fresh storage with a parent
    whose chain of parents is live, returns and leaves the new window dirty.
    With a null parent it adds the new window and the repaint request and
    nothing else.  With a parent it calls [RegisterSubWin] on the parent
    once the window is set up and invalidated, and the outcome is this: when
    the rectangle of the new window is not contained in the parent's, the
    overrider of [registerSubWin] is not reached and nothing is registered;
    when it is contained, the inactivity timeout is reset, the
    relative-sub-windows flag is passed on, and the state the constructor
    leaves is the one the parent's overrider of [registerSubWin] gives for
    the new window, so that the window is in the parent's list exactly when
    that overrider puts it there. *)
Theorem ctor_registers_through_overrider hook cb fuel this parent r ty cl s :
  heap s !! this = None ->
  chain_ok fuel (heap s) parent = true ->
  hook_keeps invalid hook ->
  exists s' w',
    window_t_ctor hook cb fuel this parent r ty cl s = Some (tt, s')
    /\ heap s' !! this = Some w'
    /\ IsInvalid w' = true
    /\ match parent with
       | None => s' = touched s this id (constructed cb parent r ty cl) [gui_invalidate]
       | Some p =>
           exists pr cr pw,
             GetRect fuel
               (heap (touched s this id (constructed cb parent r ty cl) [gui_invalidate]))
               p = Some pr
             /\ GetRect fuel
                  (heap (touched s this id (constructed cb parent r ty cl) [gui_invalidate]))
                  this = Some cr
             /\ heap s !! p = Some pw
             /\ if Contain pr cr
                then s' = snd (hook p this
                     (if has_relative_subwins (flags pw)
                      then touched
                             (touched s this id (constructed cb parent r ty cl)
                                [gui_invalidate])
                             this (with_flags (set_has_relative_subwins true))
                             (constructed cb parent r ty cl) [Screens_ResetTimeout]
                      else traced
                             (touched s this id (constructed cb parent r ty cl)
                                [gui_invalidate])
                             [Screens_ResetTimeout]))
                else s' = touched s this id (constructed cb parent r ty cl)
                            [gui_invalidate]
       end.
Proof.
  intros Hfresh Hok Hk.
  destruct (ctor_live invalid hook cb fuel this parent r ty cl s)
    as (s' & w' & He & Hw & Hf & Hp); [done..|].
  exists s', w'. split_and!; [done..|].
  destruct parent as [p|]; [|done]. destruct Hp as [b Hreg].
  set (s0 := touched s this id (constructed cb (Some p) r ty cl) [gui_invalidate]) in *.
  assert (heap s0 !! this = Some (constructed cb (Some p) r ty cl)) as Hc
    by apply lookup_insert_eq.
  assert (exists pr cr, GetRect fuel (heap s0) p = Some pr
                        /\ GetRect fuel (heap s0) this = Some cr) as (pr & cr & Hpr & Hcr).
  { unfold RegisterSubWin, bind, get_heap, lift in Hreg.
    destruct (GetRect fuel (heap s0) p); [|done].
    destruct (GetRect fuel (heap s0) this); [|done]. eauto. }
  destruct (GetRect_live _ _ _ _ Hpr) as [pw Hpw].
  assert (heap s !! p = Some pw) as Hpws.
  { unfold s0, touched in Hpw. cbn in Hpw.
    rewrite lookup_insert_ne in Hpw; [done|]. intros <-.
    unfold chain_ok in Hok. destruct (depth fuel (heap s) this) eqn:Hd; [|done].
    apply depth_live in Hd as [? Hd]. congruence. }
  rewrite (RegisterSubWin_live hook _ _ _ s0 _ _ _ _ Hpr Hcr Hpw Hc) in Hreg.
  exists pr, cr, pw. split_and!; [done..|].
  injection Hreg as Hreg.
  destruct (Contain pr cr); [by rewrite Hreg|]. by injection Hreg as _ <-.
Qed.

(** C10.  The window a constructor leaves is enabled exactly when the
    close-on-click argument is [yes]. *)
Theorem ctor_enabled_iff_close_on_click hook cb fuel this parent r ty cl s :
  heap s !! this = None ->
  chain_ok fuel (heap s) parent = true ->
  hook_keeps enabled hook ->
  exists s' w',
    window_t_ctor hook cb fuel this parent r ty cl s = Some (tt, s')
    /\ heap s' !! this = Some w'
    /\ (IsEnabled w' = true <-> cl = yes).
Proof.
  intros Hfresh Hok Hk.
  destruct (ctor_live enabled hook cb fuel this parent r ty cl s)
    as (s' & w' & He & Hw & Hf & Hp); [done..|].
  exists s', w'. split_and!; [done..|].
  unfold IsEnabled. rewrite Hf. cbn. by rewrite bool_decide_eq_true.
Qed.

(** *** Destruction *)

Lemma addInvalidationRect_live this rc s w :
  heap s !! this = Some w ->
  addInvalidationRect this rc s =
    Some (tt, if IsEmpty (rect w) then s
              else touched s this (with_flags (set_invalid true)) w [gui_invalidate]).
Proof.
  intros Hw. unfold addInvalidationRect, bind, load, when, ret. rewrite Hw.
  destruct (IsEmpty (rect w)); [done|]. cbn. by apply Invalidate_default.
Qed.

Lemma UnregisterSubWin_live hook fuel this win s cw pw r :
  heap s !! win = Some cw ->
  GetParent cw = Some this ->
  heap s !! this = Some pw ->
  GetRect fuel (heap s) win = Some r ->
  UnregisterSubWin hook fuel this win s =
    Some (tt, traced
                (snd (hook this win
                        (if IsEmpty (rect pw) then s
                         else touched s this (with_flags (set_invalid true)) pw
                                [gui_invalidate])))
                [Screens_ResetTimeout]).
Proof.
  intros Hcw Hp Hpw Hr.
  unfold UnregisterSubWin, bind, load, get_heap, lift. rewrite Hcw, Hp.
  rewrite bool_decide_eq_true_2 by done. rewrite Hr.
  rewrite (addInvalidationRect_live _ _ _ _ Hpw).
  unfold emit, traced. by destruct (hook _ _ _) as [[] ?].
Qed.

Lemma dtor_eq hook fuel this s w :
  heap s !! this = Some w ->
  window_t_dtor hook fuel this s =
    let s1 := mkGui (heap s) (if IsFocused s this then None else focused_ptr s)
                (trace s ++ [gui_timers_delete_by_window this]) in
    match GetParent w with
    | Some p =>
        match UnregisterSubWin hook fuel p this s1 with
        | Some (_, s2) => Some (tt, traced s2 [Screens_ResetTimeout])
        | None => None
        end
    | None => Some (tt, traced s1 [Screens_ResetTimeout])
    end.
Proof.
  intros Hw.
  unfold window_t_dtor, bind, emit, get_focused, when, set_focused, load, ret.
  cbn [heap focused_ptr trace]. unfold IsFocused, GetFocusedWindow.
  destruct (bool_decide (focused_ptr s = Some this));
    cbn [heap focused_ptr trace]; rewrite Hw; by destruct (GetParent w).
Qed.

Lemma depth_parent_live fuel h this w p n :
  h !! this = Some w -> GetParent w = Some p -> depth fuel h this = Some n ->
  is_Some (h !! p).
Proof.
  intros Hw Hp Hd. destruct fuel as [|k]; simpl in Hd; rewrite Hw, Hp in Hd; [done|].
  destruct (depth k h p) eqn:Hdp; [|done]. by eapply depth_live.
Qed.

(** C7.  The destructor of a live window whose chain of parents is live
    returns.  It first asks for the timers of the window to be deleted and
    sets the focused pointer to null when it points to this window ([s1]);
    then, when the window has a parent, it runs [UnregisterSubWin] on the
    parent, which reaches the overrider of [unregisterSubWin] ([s2]); last it
    resets the inactivity timeout.  With an overrider that leaves the focused
    pointer alone, the pointer is at the end null when the window was the
    focused one and unchanged otherwise. *)
Theorem dtor_effects hook fuel this s w n :
  heap s !! this = Some w ->
  depth fuel (heap s) this = Some n ->
  (forall p c s0, focused_ptr (snd (hook p c s0)) = focused_ptr s0) ->
  let s1 := mkGui (heap s) (if IsFocused s this then None else focused_ptr s)
              (trace s ++ [gui_timers_delete_by_window this]) in
  exists s2 s',
    window_t_dtor hook fuel this s = Some (tt, s')
    /\ match GetParent w with
       | Some p =>
           UnregisterSubWin hook fuel p this s1 = Some (tt, s2)
           /\ exists s1', s2 = traced (snd (hook p this s1')) [Screens_ResetTimeout]
       | None => s2 = s1
       end
    /\ s' = traced s2 [Screens_ResetTimeout]
    /\ focused_ptr s' = (if IsFocused s this then None else focused_ptr s).
Proof.
  intros Hw Hd Hk s1. rewrite (dtor_eq _ _ _ _ _ Hw). cbn zeta. fold s1.
  destruct (GetParent w) as [p|] eqn:Hp; cycle 1.
  { exists s1, (traced s1 [Screens_ResetTimeout]). by split_and!. }
  destruct (depth_GetRect _ _ _ _ Hd) as [r Hr].
  destruct (depth_parent_live _ _ _ _ _ _ Hw Hp Hd) as [pw Hpw].
  rewrite (UnregisterSubWin_live hook fuel p this s1 w pw r); [|done..].
  eexists _, _. split_and!; [done|done|by eexists|done|].
  cbn. by rewrite Hk; destruct (IsEmpty (rect pw)).
Qed.

(** *** Events *)

Lemma traced_traced s l1 l2 : traced (traced s l1) l2 = traced s (l1 ++ l2).
Proof. unfold traced; cbn. by rewrite app_assoc. Qed.

Lemma WindowEvent_live fuel this sender event param s w :
  heap s !! this = Some w ->
  WindowEvent fuel this sender event param s =
    match parent w with
    | Some p =>
        if bool_decide (event = CLICK) then
          if bool_decide (close_on_click (flags w) = yes)
          then Some (tt, traced s [EventLock this sender event; Screens_Close])
          else match fuel with
               | O => None
               | S n => WindowEvent n p (Some this) event param
                          (traced s [EventLock this sender event])
               end
        else Some (tt, traced s [EventLock this sender event])
    | None => Some (tt, traced s [EventLock this sender event])
    end.
Proof.
  intros Hw.
  destruct fuel; simpl; unfold bind, emit, windowEvent, bind, load;
    cbn [heap focused_ptr trace]; rewrite Hw;
    destruct (parent w); try done;
    destruct (bool_decide (event = CLICK)); try done;
    destruct (bool_decide (close_on_click (flags w) = yes)); try done;
    unfold emit, traced; cbn; by rewrite <- app_assoc.
Qed.

(** A CLICK delivered to a window with a live chain of parents is handled:
    the trace grows by the calls of a bubble-up chain, and the receivers are
    the window and some of its parents, in order. *)
Lemma WindowEvent_bubble param fuel : forall this sender s n,
  depth fuel (heap s) this = Some n ->
  exists l, WindowEvent fuel this sender CLICK param s = Some (tt, traced s l)
            /\ bubble (heap s) this sender l
            /\ receivers l `prefix_of` ancestors fuel (heap s) this.
Proof.
  induction fuel as [|k IH]; intros this sender s n Hd.
  - simpl in Hd. destruct (heap s !! this) as [w|] eqn:Hw; [|done].
    destruct (GetParent w) eqn:Hp; [done|]. unfold GetParent in Hp.
    rewrite (WindowEvent_live _ _ _ _ _ _ _ Hw), Hp.
    eexists. split_and!; [done|by eapply bubble_root|].
    simpl. rewrite Hw, Hp. done.
  - simpl in Hd. destruct (heap s !! this) as [w|] eqn:Hw; [|done].
    rewrite (WindowEvent_live _ _ _ _ _ _ _ Hw).
    destruct (GetParent w) as [p|] eqn:Hp; unfold GetParent in Hp; rewrite Hp; cycle 1.
    { eexists. split_and!; [done|by eapply bubble_root|].
      simpl. rewrite Hw, Hp. done. }
    rewrite bool_decide_eq_true_2 by done.
    destruct (bool_decide (close_on_click (flags w) = yes)) eqn:Hc.
    { apply bool_decide_eq_true in Hc.
      eexists. split_and!; [done|by eapply bubble_close|].
      simpl. rewrite Hw, Hp. by apply prefix_cons, prefix_nil. }
    apply bool_decide_eq_false in Hc.
    destruct (depth k (heap s) p) as [m|] eqn:Hdp; [|done].
    destruct (IH p (Some this) (traced s [EventLock this sender CLICK]) m Hdp)
      as (l & He & Hb & Hpre).
    rewrite He, traced_traced. eexists. split_and!; [done| |].
    + by eapply bubble_up.
    + simpl. rewrite Hw, Hp. by apply prefix_cons.
Qed.

(** C2.  A CLICK delivered to a window that has a parent: when the window
    closes on click, [Screens::Close] is called and nothing is sent on;
    otherwise the same event is delivered to the parent with this window as
    sender.  Along a live chain of parents the delivery returns, and its
    receivers are this window and parents of it in order, so the chain is no
    longer than the way to the window without parent. *)
Theorem click_closes_or_bubbles_up k this sender param s w p n :
  heap s !! this = Some w ->
  parent w = Some p ->
  depth (S k) (heap s) this = Some n ->
  (close_on_click (flags w) = yes ->
     WindowEvent (S k) this sender CLICK param s =
       Some (tt, traced s [EventLock this sender CLICK; Screens_Close]))
  /\ (close_on_click (flags w) <> yes ->
     WindowEvent (S k) this sender CLICK param s =
       WindowEvent k p (Some this) CLICK param (traced s [EventLock this sender CLICK]))
  /\ exists l,
       WindowEvent (S k) this sender CLICK param s = Some (tt, traced s l)
       /\ bubble (heap s) this sender l
       /\ receivers l `prefix_of` ancestors (S k) (heap s) this
       /\ (length (receivers l) <= S n)%nat.
Proof.
  intros Hw Hp Hd. split_and!.
  - intros Hc. rewrite (WindowEvent_live _ _ _ _ _ _ _ Hw), Hp.
    by rewrite !bool_decide_eq_true_2.
  - intros Hc. rewrite (WindowEvent_live _ _ _ _ _ _ _ Hw), Hp.
    by rewrite bool_decide_eq_true_2, bool_decide_eq_false_2.
  - destruct (WindowEvent_bubble param _ _ sender _ _ Hd) as (l & He & Hb & Hpre).
    exists l. split_and!; [done..|].
    apply prefix_length in Hpre. etrans; [exact Hpre|].
    clear -Hd. revert this n Hd. generalize (S k) as fuel.
    induction fuel as [|j IH]; intros this n; simpl.
    + destruct (heap s !! this) as [w|]; [|done].
      destruct (GetParent w) eqn:Hp; unfold GetParent in Hp; rewrite Hp; [done|].
      simpl; lia.
    + destruct (heap s !! this) as [w|]; [|done].
      destruct (GetParent w) as [q|] eqn:Hp; unfold GetParent in Hp; rewrite Hp;
        [|simpl; lia].
      destruct (depth j (heap s) q) as [m|] eqn:Hdq; [|done]. intros [= <-].
      specialize (IH _ _ Hdq). simpl in *. lia.
Qed.

(** *** Operations that leave the focus alone *)

Lemma bind_Some {A B} (m : M (Rect16:=Rect16) A) (k : A -> M B) s (res : B * gui) :
  bind m k s = Some res -> exists a s1, m s = Some (a, s1) /\ k a s1 = Some res.
Proof. unfold bind. destruct (m s) as [[a s1]|]; [eauto|done]. Qed.

Lemma keeps_ret {A} (a : A) : keeps (Rect16:=Rect16) (ret a).
Proof. by intros s a' s' [= <- <-]. Qed.

Lemma keeps_fail {A} : keeps (Rect16:=Rect16) (@fail _ A).
Proof. by intros s a s'. Qed.

Lemma keeps_bind {A B} (m : M (Rect16:=Rect16) A) (k : A -> M B) :
  keeps m -> (forall a, keeps (k a)) -> keeps (bind m k).
Proof.
  intros Hm Hk s b s' (a & s1 & H1 & H2)%bind_Some.
  destruct (Hm _ _ _ H1) as [Hf1 Hl1]. destruct (Hk _ _ _ _ H2) as [Hf2 Hl2].
  split; [congruence|auto].
Qed.

Lemma keeps_load this : keeps (Rect16:=Rect16) (load this).
Proof. intros s a s'. unfold load. by destruct (heap s !! this); intros [= <- <-]. Qed.

Lemma keeps_update this g : keeps (Rect16:=Rect16) (update this g).
Proof.
  intros s a s'. unfold update. destruct (heap s !! this); [|done].
  intros [= <- <-]. split; [done|]. intros x Hx. cbn.
  rewrite lookup_insert_is_Some. destruct (decide (this = x)); auto.
Qed.

Lemma keeps_emit c : keeps (Rect16:=Rect16) (emit c).
Proof. by intros s a s' [= <- <-]. Qed.

Lemma keeps_get_focused : keeps (Rect16:=Rect16) get_focused.
Proof. by intros s a s' [= <- <-]. Qed.

Lemma keeps_get_heap : keeps (Rect16:=Rect16) get_heap.
Proof. by intros s a s' [= <- <-]. Qed.

Lemma keeps_lift {A} (o : option A) : keeps (Rect16:=Rect16) (lift o).
Proof. intros s a s'. unfold lift. by destruct o; intros [= <- <-]. Qed.

Lemma keeps_when b (m : M (Rect16:=Rect16) unit) : keeps m -> keeps (when b m).
Proof. destruct b; [done|]. intros _. apply keeps_ret. Qed.

Lemma load_Some this s w s' :
  load (Rect16:=Rect16) this s = Some (w, s') -> s' = s /\ heap s !! this = Some w.
Proof. unfold load. destruct (heap s !! this); [|done]. by intros [= <- <-]. Qed.

Create HintDb keeps discriminated.
#[local] Hint Resolve keeps_ret keeps_fail keeps_load keeps_update keeps_emit
  keeps_get_focused keeps_get_heap keeps_lift keeps_when : keeps.

Ltac keeps_step :=
  match goal with
  | |- keeps (bind _ _) => apply keeps_bind; [|intros ?]
  | |- keeps (when _ _) => apply keeps_when
  | |- keeps (if ?b then _ else _) => destruct b
  | |- keeps (match ?x with _ => _ end) => destruct x
  | |- keeps _ => solve [auto with keeps]
  end.

Lemma keeps_Invalidate this r : keeps (Invalidate this r).
Proof. unfold Invalidate, invalidate. repeat keeps_step. Qed.

Lemma keeps_Validate this r : keeps (Validate this r).
Proof. unfold Validate, validate. repeat keeps_step. Qed.

#[local] Hint Resolve keeps_Invalidate keeps_Validate : keeps.

Lemma keeps_WindowEvent fuel : forall this sender event param,
  keeps (Rect16:=Rect16) (WindowEvent fuel this sender event param).
Proof.
  induction fuel as [|k IH]; intros this sender event param; simpl;
    unfold windowEvent; repeat keeps_step; apply IH.
Qed.

#[local] Hint Resolve keeps_WindowEvent : keeps.

Lemma keeps_notify this : keeps (Rect16:=Rect16) (notifyVisibilityChange this).
Proof. unfold notifyVisibilityChange, ChildVisibilityChanged. repeat keeps_step. Qed.

#[local] Hint Resolve keeps_notify : keeps.

Lemma keeps_Draw fuel this : keeps (Draw fuel this).
Proof.
  unfold Draw, draw, unconditionalDraw. repeat keeps_step.
  intros s [] s'. unfold emit. by intros [= <-].
Qed.

Lemma keeps_RegisterSubWin fuel this win :
  keeps (RegisterSubWin registerSubWin fuel this win).
Proof.
  unfold RegisterSubWin, SetRelativeSubwins, registerSubWin. repeat keeps_step.
  by intros s b s' [= <- <-].
Qed.

Lemma keeps_UnregisterSubWin fuel this win :
  keeps (UnregisterSubWin unregisterSubWin fuel this win).
Proof.
  unfold UnregisterSubWin, addInvalidationRect, unregisterSubWin. repeat keeps_step.
  by intros s b s' [= <- <-].
Qed.

Lemma keeps_ctor cb fuel this parent r ty cl :
  keeps (window_t_ctor registerSubWin cb fuel this parent r ty cl).
Proof.
  unfold window_t_ctor, Enable, Disable.
  apply keeps_bind.
  { intros s [] s' [= <-]. split; [done|]. intros x Hx. cbn.
    rewrite lookup_insert_is_Some. destruct (decide (this = x)); auto. }
  intros _. pose proof keeps_RegisterSubWin. repeat keeps_step.
Qed.

Lemma keeps_focus_live {A} (m : M A) s a s' :
  keeps m -> m s = Some (a, s') -> focus_live s -> focus_live s'.
Proof.
  intros Hk Hm Hinv f Hf. destruct (Hk _ _ _ Hm) as [Hfo Hl].
  apply Hl, Hinv. congruence.
Qed.

Lemma WindowEvent_other fuel this sender event param s w :
  event <> CLICK ->
  heap s !! this = Some w ->
  WindowEvent fuel this sender event param s =
    Some (tt, traced s [EventLock this sender event]).
Proof.
  intros He Hw. rewrite (WindowEvent_live _ _ _ _ _ _ _ Hw).
  rewrite bool_decide_eq_false_2 by done. by destruct (parent w).
Qed.

(** [SetFocus] on a visible, enabled window that is not the focused one. *)
Lemma SetFocus_moves this s w :
  heap s !! this = Some w ->
  IsVisible w = true ->
  IsEnabled w = true ->
  focused_ptr s <> Some this ->
  focus_live s ->
  exists s', SetFocus this s = Some (tt, s')
    /\ focused_ptr s' = Some this
    /\ (forall x, is_Some (heap s !! x) -> is_Some (heap s' !! x))
    /\ trace s' = trace s
         ++ match focused_ptr s with
            | Some f => [gui_invalidate; EventLock f (Some f) FOCUS0]
            | None => []
            end
         ++ [gui_invalidate; EventLock this (Some this) FOCUS1; gui_invalidate].
Proof.
  intros Hw Hv He Hne Hinv. unfold IsEnabled in He.
  unfold SetFocus, bind at 1, load. rewrite Hw, Hv, He. cbn [negb orb].
  unfold bind at 1, get_focused. rewrite bool_decide_eq_false_2 by done.
  destruct (focused_ptr s) as [f|] eqn:Hf.
  - destruct (Hinv f Hf) as [fw Hfw].
    assert (f <> this) by congruence.
    unfold bind at 1 2.
    rewrite (Invalidate_default _ _ _ Hfw).
    erewrite WindowEvent_other; [|done|cbn; apply lookup_insert_eq].
    unfold bind, set_focused. cbn [heap focused_ptr trace touched traced].
    erewrite Invalidate_default
      by (cbn; rewrite lookup_insert_ne by done; exact Hw).
    erewrite WindowEvent_other; [|done|cbn; apply lookup_insert_eq].
    eexists. split; [done|]. cbn. split_and!; [done| |].
    + intros x Hx. rewrite !lookup_insert_is_Some.
      destruct (decide (this = x)); [auto|].
      destruct (decide (f = x)); auto.
    + by rewrite <- !app_assoc.
  - unfold bind, ret, set_focused. cbn [heap focused_ptr trace].
    erewrite Invalidate_default by (cbn; exact Hw).
    erewrite WindowEvent_other; [|done|cbn; apply lookup_insert_eq].
    eexists. split; [done|]. cbn. split_and!; [done| |].
    + intros x Hx. rewrite !lookup_insert_is_Some.
      destruct (decide (this = x)); auto.
    + by rewrite <- !app_assoc.
Qed.

Lemma SetFocus_focus_live this s s' :
  SetFocus this s = Some (tt, s') -> focus_live s -> focus_live s'.
Proof.
  intros Hs Hinv.
  destruct (heap s !! this) as [w|] eqn:Hw; cycle 1.
  { unfold SetFocus, bind, load in Hs. by rewrite Hw in Hs. }
  destruct (IsVisible w) eqn:Hv; cycle 1.
  { unfold SetFocus, bind, load in Hs. rewrite Hw, Hv in Hs. by injection Hs as <-. }
  destruct (IsEnabled w) eqn:He; cycle 1.
  { unfold SetFocus, bind, load in Hs. unfold IsEnabled in He.
    rewrite Hw, Hv, He in Hs. by injection Hs as <-. }
  destruct (decide (focused_ptr s = Some this)) as [Hf|Hf].
  { unfold SetFocus, bind, load, get_focused in Hs. unfold IsEnabled in He.
    rewrite Hw, Hv, He in Hs. cbn in Hs.
    rewrite bool_decide_eq_true_2 in Hs by done. by injection Hs as <-. }
  destruct (SetFocus_moves _ _ _ Hw Hv He Hf Hinv) as (s2 & Hs2 & Hfo & Hl & _).
  rewrite Hs in Hs2. injection Hs2 as <-.
  intros f Hf'. rewrite Hfo in Hf'. injection Hf' as <-. apply Hl. eauto.
Qed.

Lemma destroy_focus_live fuel this s s' :
  destroy unregisterSubWin fuel this s = Some (tt, s') ->
  focus_live s -> focus_live s'.
Proof.
  intros Hs Hinv. unfold destroy in Hs.
  apply bind_Some in Hs as ([] & s1 & Hd & Hr).
  unfold release in Hr. injection Hr as <-.
  destruct (heap s !! this) as [w|] eqn:Hw; cycle 1.
  { unfold window_t_dtor, bind, emit, get_focused, when, set_focused, load, ret in Hd.
    destruct (bool_decide _) in Hd; cbn in Hd; by rewrite Hw in Hd. }
  rewrite (dtor_eq _ _ _ _ _ Hw) in Hd. cbn zeta in Hd.
  set (s0 := mkGui _ _ _) in Hd.
  assert (focused_ptr s0 <> Some this /\ focus_live s0) as [Hne Hinv0].
  { unfold s0, IsFocused, GetFocusedWindow. case_bool_decide as Hb; cbn.
    - split; [done|]. by intros f.
    - split; [done|]. exact Hinv. }
  assert (focused_ptr s1 = focused_ptr s0
          /\ forall x, is_Some (heap s0 !! x) -> is_Some (heap s1 !! x)) as [Hfo Hl].
  { destruct (GetParent w) as [p|].
    - destruct (UnregisterSubWin _ _ _ _ _) as [[[] s2]|] eqn:Hu; [|done].
      injection Hd as <-. by destruct (keeps_UnregisterSubWin _ _ _ _ _ _ Hu).
    - by injection Hd as <-. }
  intros f Hf. cbn in *. rewrite Hfo in Hf.
  rewrite lookup_delete_ne by congruence. apply Hl, Hinv0, Hf.
Qed.

(** In a reachable state the focused pointer is null or points to a live
    window. *)
Lemma reachable_focus_live cb s : reachable cb s -> focus_live s.
Proof.
  induction 1 as [|s fuel o s' _ IH Hstep]; [by intros f|].
  destruct o; simpl in Hstep.
  - destruct (heap s !! this); [done|]. eapply keeps_focus_live; [apply keeps_ctor|done..].
  - by eapply destroy_focus_live.
  - by eapply SetFocus_focus_live.
  - injection Hstep as <-. by intros f.
  - eapply keeps_focus_live; [|done..]. unfold Show. repeat keeps_step.
  - eapply keeps_focus_live; [|done..]. unfold Hide. repeat keeps_step.
  - eapply keeps_focus_live; [|done..]. unfold ShowAfterDialog. repeat keeps_step.
  - eapply keeps_focus_live; [|done..]. unfold HideBehindDialog. repeat keeps_step.
  - eapply keeps_focus_live; [|done..]. unfold Shadow. repeat keeps_step.
  - eapply keeps_focus_live; [|done..]. unfold Unshadow. repeat keeps_step.
  - eapply keeps_focus_live; [|done..]. unfold Enable. repeat keeps_step.
  - eapply keeps_focus_live; [|done..]. unfold Disable. repeat keeps_step.
  - eapply keeps_focus_live; [apply keeps_Invalidate|done..].
  - eapply keeps_focus_live; [apply keeps_Validate|done..].
  - eapply keeps_focus_live; [apply keeps_Draw|done..].
  - eapply keeps_focus_live; [apply keeps_WindowEvent|done..].
Qed.

Lemma reachable_run_ops cb fuel l : forall s s',
  reachable cb s -> run_ops cb fuel l s = Some (tt, s') -> reachable cb s'.
Proof.
  induction l as [|o l IH]; intros s s' Hr; simpl.
  - by intros [= <-].
  - intros ([] & s1 & H1 & H2)%bind_Some. eapply IH; [|done].
    by eapply reachable_step.
Qed.

Lemma registerSubWin_keeps f : hook_keeps (Rect16:=Rect16) f registerSubWin.
Proof. intros this win s w Hw. exists w. by split_and!. Qed.

(** C1.  In every reachable state at most one window is focused, and the
    focused window, if any, is live.  [SetFocus] on a live, visible, enabled
    window returns with that window focused and no other; destroying the
    focused window leaves the focused pointer null. *)
Theorem focus_at_most_one cb s :
  reachable cb s ->
  (forall p1 p2 : ptr, IsFocused s p1 = true -> IsFocused s p2 = true -> p1 = p2)
  /\ (forall f, IsFocused s f = true -> is_Some (heap s !! f))
  /\ (forall this w,
        heap s !! this = Some w -> IsVisible w = true -> IsEnabled w = true ->
        exists s', SetFocus this s = Some (tt, s')
                   /\ IsFocused s' this = true
                   /\ forall v, v <> this -> IsFocused s' v = false)
  /\ (forall this fuel n,
        IsFocused s this = true -> depth fuel (heap s) this = Some n ->
        exists s', destroy unregisterSubWin fuel this s = Some (tt, s')
                   /\ GetFocusedWindow s' = None
                   /\ heap s' !! this = None).
Proof.
  intros Hr. pose proof (reachable_focus_live _ _ Hr) as Hinv.
  unfold IsFocused, GetFocusedWindow. split_and!.
  - intros p1 p2 H1%bool_decide_eq_true H2%bool_decide_eq_true. congruence.
  - intros f Hf%bool_decide_eq_true. by apply Hinv.
  - intros this w Hw Hv He.
    assert (forall s' : gui (Rect16:=Rect16), focused_ptr s' = Some this ->
              bool_decide (focused_ptr s' = Some this) = true
              /\ forall v, v <> this -> bool_decide (focused_ptr s' = Some v) = false)
      as Hfin.
    { intros s' ->. split; [by apply bool_decide_eq_true_2|].
      intros v Hv'. apply bool_decide_eq_false_2. congruence. }
    destruct (decide (focused_ptr s = Some this)) as [Hf|Hf].
    + exists s. split; [|by apply Hfin].
      unfold SetFocus, bind, load, get_focused. unfold IsEnabled in He.
      rewrite Hw, Hv, He. cbn. by rewrite bool_decide_eq_true_2.
    + destruct (SetFocus_moves _ _ _ Hw Hv He Hf Hinv) as (s' & Hs & Hfo & _).
      exists s'. split; [done|by apply Hfin].
  - intros this fuel n Hf%bool_decide_eq_true Hd.
    destruct (Hinv _ Hf) as [w Hw].
    unfold destroy, bind. rewrite (dtor_eq _ _ _ _ _ Hw). cbn zeta.
    unfold IsFocused, GetFocusedWindow. rewrite bool_decide_eq_true_2 by done.
    destruct (GetParent w) as [p|] eqn:Hp.
    + destruct (depth_GetRect _ _ _ _ Hd) as [r Hr'].
      destruct (depth_parent_live _ _ _ _ _ _ Hw Hp Hd) as [pw Hpw].
      erewrite UnregisterSubWin_live; [|done..].
      eexists. split; [done|]. cbn. split; [by destruct (IsEmpty (rect pw))|].
      apply lookup_delete_eq.
    + eexists. split; [done|]. cbn. split; [done|]. apply lookup_delete_eq.
Qed.

(** ** Further properties of window.cpp *)

(** *** Validation and drawing *)

(** X1.  [Validate(r)] clears the invalid flag exactly when [r] is empty or
    intersects the window's rectangle, and otherwise changes nothing; it
    never requests a repaint and never moves the focus. *)
Theorem Validate_effect this r s w :
  heap s !! this = Some w ->
  exists s', Validate this r s = Some (tt, s')
    /\ focused_ptr s' = focused_ptr s
    /\ trace s' = trace s
    /\ if IsEmpty r || HasIntersection (rect w) r
       then heap s' = <[this := with_flags (set_invalid false) w]> (heap s)
       else s' = s.
Proof.
  intros Hw. unfold Validate, validate, bind, load, update, ret. rewrite Hw.
  destruct (IsEmpty r || HasIntersection (rect w) r).
  - rewrite Hw. eexists. by split_and!.
  - exists s. by split_and!.
Qed.

(** X2.  [Invalidate(r)] followed by [Validate(r)] with the same rectangle:
    when [r] is empty or intersects the window the window ends valid, with
    one repaint requested; otherwise nothing has changed. *)
Theorem Invalidate_then_Validate this r s w :
  heap s !! this = Some w ->
  exists s', bind (Invalidate this r) (fun _ => Validate this r) s = Some (tt, s')
    /\ if IsEmpty r || HasIntersection (rect w) r
       then heap s' = <[this := with_flags (set_invalid false) w]> (heap s)
            /\ focused_ptr s' = focused_ptr s
            /\ trace s' = trace s ++ [gui_invalidate]
       else s' = s.
Proof.
  intros Hw. unfold bind at 1. rewrite (Invalidate_live _ _ _ _ Hw).
  destruct (IsEmpty r || HasIntersection (rect w) r) eqn:Hc.
  - unfold Validate, validate, bind, load, update, ret. cbn [touched heap].
    rewrite lookup_insert_eq. cbn [rect with_flags]. rewrite Hc.
    unfold touched. cbn [heap focused_ptr trace]. rewrite lookup_insert_eq.
    eexists. split; [done|]. cbn. by rewrite insert_insert_eq.
  - unfold Validate, bind, load, ret. rewrite Hw, Hc. by exists s.
Qed.

(** X3.  Drawing twice is drawing once: after a [Draw] that returned, a
    second [Draw] of the same window returns with the state unchanged, so
    nothing is repainted again. *)
Theorem Draw_twice fuel this s s1 :
  Draw fuel this s = Some (tt, s1) ->
  Draw fuel this s1 = Some (tt, s1).
Proof.
  unfold Draw, draw. intros Hd.
  apply bind_Some in Hd as (w & s0 & [-> Hw]%load_Some & Hd).
  destruct (IsInvalid w && negb (Width (rect w) =? 0) && negb (Height (rect w) =? 0))
    eqn:Hc; cycle 1.
  { injection Hd as <-. unfold bind, load. by rewrite Hw, Hc. }
  apply bind_Some in Hd as ([] & s2 & Hu & Hv).
  assert (heap s2 !! this = Some w) as Hw2.
  { unfold when in Hu. destruct (IsVisible w); [|by injection Hu as <-].
    unfold unconditionalDraw in Hu.
    apply bind_Some in Hu as (? & ? & [-> _]%load_Some & Hu).
    apply bind_Some in Hu as (? & ? & [= <- <-] & Hu).
    apply bind_Some in Hu as (? & ? & Hu' & Hu).
    unfold lift in Hu'. destruct (GetRect _ _ _); [|done]. injection Hu' as <- <-.
    unfold emit in Hu. by injection Hu as <-. }
  rewrite (Validate_default _ _ _ Hw2) in Hv. injection Hv as <-.
  unfold bind, load, touched. cbn [heap]. rewrite lookup_insert_eq.
  unfold IsInvalid. cbn. done.
Qed.

(** *** Showing, hiding and shadowing *)

Lemma notifyVisibilityChange_live this s w :
  heap s !! this = Some w ->
  (forall p, GetParent w = Some p -> is_Some (heap s !! p)) ->
  notifyVisibilityChange this s = Some (tt, s).
Proof.
  intros Hw Hp. unfold notifyVisibilityChange, ChildVisibilityChanged, bind, load, ret.
  rewrite Hw. destruct (GetParent w) as [p|]; [|done].
  by destruct (Hp p eq_refl) as [pw ->].
Qed.

(** X4.  [Show] does nothing on a window whose visible flag is set.
    Otherwise it sets the flag, and it marks the window dirty and requests a
    repaint only when the window is not hidden behind a dialog. *)
Theorem Show_effect this s w :
  heap s !! this = Some w ->
  (forall p, GetParent w = Some p -> is_Some (heap s !! p)) ->
  Show this s =
    Some (tt,
      if visible (flags w) then s
      else if hidden_behind_dialog (flags w)
           then mkGui (<[this := with_flags (set_visible true) w]> (heap s))
                  (focused_ptr s) (trace s)
           else touched s this
                  (fun w => with_flags (set_invalid true) (with_flags (set_visible true) w))
                  w [gui_invalidate]).
Proof.
  intros Hw Hp. unfold Show, bind at 1, load. rewrite Hw.
  destruct (visible (flags w)); [done|]. cbn [negb].
  unfold bind at 1, update. rewrite Hw.
  destruct (hidden_behind_dialog (flags w)); unfold when, bind; cbn [negb ret].
  - erewrite notifyVisibilityChange_live; [done|cbn; apply lookup_insert_eq|].
    intros p Hpp. cbn. rewrite lookup_insert_is_Some.
    destruct (decide (this = p)); auto.
  - erewrite Invalidate_default by (cbn; apply lookup_insert_eq).
    unfold touched; cbn [heap focused_ptr trace]. rewrite insert_insert_eq.
    erewrite notifyVisibilityChange_live; [done|cbn; apply lookup_insert_eq|].
    intros p Hpp. cbn. rewrite lookup_insert_is_Some.
    destruct (decide (this = p)); auto.
Qed.

(** X5.  [Hide] does nothing on a window whose visible flag is clear.
    Otherwise it clears the flag, and it marks the window dirty and requests
    a repaint only when the window is not hidden behind a dialog. *)
Theorem Hide_effect this s w :
  heap s !! this = Some w ->
  (forall p, GetParent w = Some p -> is_Some (heap s !! p)) ->
  Hide this s =
    Some (tt,
      if visible (flags w) then
        if hidden_behind_dialog (flags w)
        then mkGui (<[this := with_flags (set_visible false) w]> (heap s))
               (focused_ptr s) (trace s)
        else touched s this
               (fun w => with_flags (set_invalid true) (with_flags (set_visible false) w))
               w [gui_invalidate]
      else s).
Proof.
  intros Hw Hp. unfold Hide, bind at 1, load. rewrite Hw.
  destruct (visible (flags w)); [|done].
  unfold bind at 1, update. rewrite Hw.
  destruct (hidden_behind_dialog (flags w)); unfold when, bind; cbn [negb ret].
  - erewrite notifyVisibilityChange_live; [done|cbn; apply lookup_insert_eq|].
    intros p Hpp. cbn. rewrite lookup_insert_is_Some.
    destruct (decide (this = p)); auto.
  - erewrite Invalidate_default by (cbn; apply lookup_insert_eq).
    unfold touched; cbn [heap focused_ptr trace]. rewrite insert_insert_eq.
    erewrite notifyVisibilityChange_live; [done|cbn; apply lookup_insert_eq|].
    intros p Hpp. cbn. rewrite lookup_insert_is_Some.
    destruct (decide (this = p)); auto.
Qed.

(** X6.  On a window that is not shadowed, [Shadow] then [Unshadow] leaves
    the window not shadowed and dirty, with one repaint requested by each;
    a second [Shadow] right after the first does nothing. *)
Theorem Shadow_Unshadow this s w :
  heap s !! this = Some w ->
  IsShadowed w = false ->
  exists s1 s2,
    Shadow this s = Some (tt, s1)
    /\ Shadow this s1 = Some (tt, s1)
    /\ Unshadow this s1 = Some (tt, s2)
    /\ heap s2 = <[this := with_flags (set_invalid true) w]> (heap s)
    /\ focused_ptr s2 = focused_ptr s
    /\ trace s2 = trace s ++ [gui_invalidate; gui_invalidate].
Proof.
  intros Hw Hs. unfold IsShadowed in Hs.
  assert (Shadow this s =
          Some (tt, touched s this
                      (fun w => with_flags (set_invalid true) (with_flags (set_shadow true) w))
                      w [gui_invalidate])) as H1.
  { unfold Shadow, bind, load, update. rewrite Hw, Hs. cbn [negb]. rewrite Hw.
    erewrite Invalidate_default by (cbn; apply lookup_insert_eq).
    unfold touched; cbn [heap focused_ptr trace]. by rewrite insert_insert_eq. }
  eexists _, _. split; [exact H1|]. split_and!.
  - unfold Shadow, bind, load, touched. cbn [heap]. by rewrite lookup_insert_eq.
  - unfold Unshadow, bind, load, update, touched. cbn [heap focused_ptr trace].
    rewrite lookup_insert_eq.
    cbn [heap focused_ptr trace flags with_flags shadow set_invalid set_shadow].
    rewrite lookup_insert_eq.
    erewrite Invalidate_default by (cbn; apply lookup_insert_eq). done.
  - unfold touched; cbn. rewrite !insert_insert_eq. f_equal.
    destruct w as [? ? ? [] ? ?]; cbn in *. by subst.
  - done.
  - cbn. by rewrite <- app_assoc.
Qed.

(** *** Focus *)

(** X7.  When [SetFocus] moves the focus from a live window [old] to
    another live, visible and enabled window, both windows are marked dirty,
    [old] receives FOCUS0 before the new window receives FOCUS1, and a
    repaint is requested after each step; nothing else changes. *)
Theorem SetFocus_events this old s w ow :
  heap s !! this = Some w ->
  IsVisible w = true ->
  IsEnabled w = true ->
  focused_ptr s = Some old ->
  old <> this ->
  heap s !! old = Some ow ->
  SetFocus this s =
    Some (tt, mkGui
                (<[this := with_flags (set_invalid true) w]>
                   (<[old := with_flags (set_invalid true) ow]> (heap s)))
                (Some this)
                (trace s ++ [gui_invalidate; EventLock old (Some old) FOCUS0;
                             gui_invalidate; EventLock this (Some this) FOCUS1;
                             gui_invalidate])).
Proof.
  intros Hw Hv He Hf Hne How. unfold IsEnabled in He.
  unfold SetFocus, bind at 1, load. rewrite Hw, Hv, He. cbn [negb orb].
  unfold bind at 1, get_focused. rewrite Hf.
  rewrite bool_decide_eq_false_2 by congruence.
  unfold bind at 1 2.
  rewrite (Invalidate_default _ _ _ How).
  erewrite WindowEvent_other; [|done|cbn; apply lookup_insert_eq].
  unfold bind, set_focused. cbn [heap focused_ptr trace touched traced].
  erewrite Invalidate_default
    by (cbn; rewrite lookup_insert_ne by done; exact Hw).
  erewrite WindowEvent_other; [|done|cbn; apply lookup_insert_eq].
  unfold emit, touched, traced. cbn. by rewrite <- !app_assoc.
Qed.

(** X8.  [SetFocus] twice is [SetFocus] once: after a [SetFocus] that
    returned, a second one on the same window changes nothing. *)
Theorem SetFocus_twice this s s1 :
  SetFocus this s = Some (tt, s1) ->
  SetFocus this s1 = Some (tt, s1).
Proof.
  intros Hs.
  assert (s1 = s \/ (focused_ptr s1 = Some this /\ is_Some (heap s1 !! this)))
    as [->|[Hf [w1 Hw1]]]; [|done|].
  { destruct (heap s !! this) as [w|] eqn:Hw; cycle 1.
    { unfold SetFocus, bind, load in Hs. by rewrite Hw in Hs. }
    destruct (IsVisible w) eqn:Hv; cycle 1.
    { unfold SetFocus, bind, load in Hs. rewrite Hw, Hv in Hs.
      left. by injection Hs as <-. }
    destruct (IsEnabled w) eqn:He; cycle 1.
    { unfold SetFocus, bind, load in Hs. unfold IsEnabled in He.
      rewrite Hw, Hv, He in Hs. left. by injection Hs as <-. }
    destruct (decide (focused_ptr s = Some this)) as [Hf|Hf].
    { unfold SetFocus, bind, load, get_focused in Hs. unfold IsEnabled in He.
      rewrite Hw, Hv, He in Hs. cbn in Hs.
      rewrite bool_decide_eq_true_2 in Hs by done. left. by injection Hs as <-. }
    assert (focus_live s) as Hinv.
    { intros f Hff. destruct (heap s !! f) eqn:Hlf; [eauto|]. exfalso.
      unfold SetFocus, bind, load, get_focused in Hs. unfold IsEnabled in He.
      rewrite Hw, Hv, He in Hs. cbn in Hs. rewrite Hff in Hs.
      rewrite bool_decide_eq_false_2 in Hs by congruence.
      unfold Invalidate, bind, load in Hs. by rewrite Hlf in Hs. }
    destruct (SetFocus_moves _ _ _ Hw Hv He Hf Hinv) as (s2 & Hs2 & Hfo & Hl & _).
    rewrite Hs in Hs2. injection Hs2 as <-. right. split; [done|]. apply Hl. eauto. }
  unfold SetFocus, bind, load, get_focused. rewrite Hw1.
  destruct (negb (IsVisible w1) || negb (enabled (flags w1))); [done|].
  by rewrite bool_decide_eq_true_2.
Qed.

(** *** Events *)

(** X9.  Delivering an event never changes a window or the focus: when
    [WindowEvent] returns, the state differs from the one before only by
    calls added to the trace, the first of which records the delivery to the
    receiver. *)
Theorem WindowEvent_changes_trace_only fuel : forall this sender event param s s',
  WindowEvent fuel this sender event param s = Some (tt, s') ->
  exists l, s' = traced s (EventLock this sender event :: l).
Proof.
  induction fuel as [|k IH]; intros this sender event param s s' Hs.
  - destruct (heap s !! this) as [w|] eqn:Hw; cycle 1.
    { simpl in Hs. unfold bind, emit, windowEvent, bind, load in Hs.
      cbn in Hs. by rewrite Hw in Hs. }
    rewrite (WindowEvent_live _ _ _ _ _ _ _ Hw) in Hs.
    destruct (parent w); [|injection Hs as <-; by eexists].
    destruct (bool_decide (event = CLICK)); [|injection Hs as <-; by eexists].
    destruct (bool_decide _); [|done]. injection Hs as <-. by eexists.
  - destruct (heap s !! this) as [w|] eqn:Hw; cycle 1.
    { simpl in Hs. unfold bind, emit, windowEvent, bind, load in Hs.
      cbn in Hs. by rewrite Hw in Hs. }
    rewrite (WindowEvent_live _ _ _ _ _ _ _ Hw) in Hs.
    destruct (parent w); [|injection Hs as <-; by eexists].
    destruct (bool_decide (event = CLICK)); [|injection Hs as <-; by eexists].
    destruct (bool_decide _); [injection Hs as <-; by eexists|].
    apply IH in Hs as [l ->]. rewrite traced_traced. by eexists.
Qed.

(** X10.  An event that is not a CLICK, and a CLICK on a window without
    parent (even one that is closed on click), is delivered to the receiver
    and goes no further: nothing is sent to a parent and [Screens::Close] is
    not called, whatever the bound on re-sending. *)
Theorem WindowEvent_stops fuel this sender event param s w :
  heap s !! this = Some w ->
  event <> CLICK \/ parent w = None ->
  WindowEvent fuel this sender event param s =
    Some (tt, traced s [EventLock this sender event]).
Proof.
  intros Hw Hc. rewrite (WindowEvent_live _ _ _ _ _ _ _ Hw).
  destruct (parent w) as [p|]; [|done].
  destruct Hc as [Hc|Hc]; [|done]. by rewrite bool_decide_eq_false_2.
Qed.

(** *** Siblings and ancestors *)

(** X11.  Along a live, finite list of siblings [GetNextEnabled] returns the
    first enabled window after [this], and [nullptr] when there is none. *)
Theorem GetNextEnabled_first_enabled fuel h : forall this l,
  following fuel h this = Some l ->
  GetNextEnabled fuel h this = Some (List.find (enabled_at h) l).
Proof.
  induction fuel as [|k IH]; intros this l; simpl.
  - destruct (h !! this) as [w|]; [|done].
    destruct (next w); [done|]. by intros [= <-].
  - destruct (h !! this) as [w|]; [|done].
    destruct (next w) as [nx|]; [|by intros [= <-]].
    destruct (following k h nx) as [l'|] eqn:Hf; [|done]. intros [= <-].
    assert (is_Some (h !! nx)) as [nw Hnw].
    { destruct k; simpl in Hf; destruct (h !! nx); eauto; done. }
    rewrite Hnw. simpl. unfold enabled_at at 1. rewrite Hnw.
    destruct (IsEnabled nw); [done|]. by apply IH.
Qed.

Lemma depth_le_fuel fuel h : forall this n, depth fuel h this = Some n -> (n <= fuel)%nat.
Proof.
  induction fuel as [|k IH]; intros this n; simpl.
  - destruct (h !! this) as [w|]; [|done]. destruct (GetParent w); [done|].
    intros [= <-]. lia.
  - destruct (h !! this) as [w|]; [|done]. destruct (GetParent w) as [p|].
    + destruct (depth k h p) as [m|] eqn:Hd; [|done]. intros [= <-].
      apply IH in Hd. lia.
    + intros [= <-]. lia.
Qed.

(** Every window on the way from [p] to the top is at most as deep as
    [p]. *)
Lemma ancestors_depth fuel h : forall p m x,
  depth fuel h p = Some m -> x ∈ ancestors fuel h p ->
  exists mx, (mx <= m)%nat /\ depth fuel h x = Some mx.
Proof.
  induction fuel as [|k IH]; intros p m x Hd; simpl.
  - simpl in Hd. destruct (h !! p) as [w|] eqn:Hw; [|done].
    destruct (GetParent w) eqn:Hp; [done|]. unfold GetParent in Hp. rewrite Hp.
    intros ->%list_elem_of_singleton. exists m. split; [lia|].
    simpl. unfold GetParent. by rewrite Hw, Hp.
  - pose proof Hd as Hd'. simpl in Hd. destruct (h !! p) as [w|] eqn:Hw; [|done].
    destruct (GetParent w) as [q|] eqn:Hp; unfold GetParent in Hp; rewrite Hp.
    + destruct (depth k h q) as [m'|] eqn:Hq; [|done]. injection Hd as <-.
      intros [->|Hx]%elem_of_cons.
      * exists (S m'). split; [lia|done].
      * destruct (IH _ _ _ Hq Hx) as (mx & Hle & Hdx).
        exists mx. split; [lia|].
        pose proof (depth_le_fuel _ _ _ _ Hdx).
        exact (depth_enough k (S k) h x mx Hdx ltac:(lia)).
    + intros ->%list_elem_of_singleton. exists m. split; [lia|done].
Qed.

(** A window whose chain of parents ends is not among its own parents. *)
Lemma not_own_ancestor fuel h this w p n k :
  h !! this = Some w -> GetParent w = Some p ->
  depth fuel h this = Some n ->
  this ∉ ancestors k h p.
Proof.
  intros Hw Hp Hd Hin.
  destruct fuel as [|f]; simpl in Hd; rewrite Hw, Hp in Hd; [done|].
  destruct (depth f h p) as [m|] eqn:Hdp; [|done]. injection Hd as <-.
  assert (this ∈ ancestors f h p) as Hin'.
  { clear -Hin Hdp. revert k p m Hin Hdp.
    induction f as [|f IH]; intros k p m Hin Hdp; simpl in Hdp.
    - destruct (h !! p) as [pw|] eqn:Hpw; [|done].
      destruct (GetParent pw) eqn:Hpp; [done|]. unfold GetParent in Hpp.
      destruct k; simpl in Hin |- *; by rewrite Hpw, Hpp in Hin |- *.
    - destruct (h !! p) as [pw|] eqn:Hpw; [|done].
      destruct (GetParent pw) as [q|] eqn:Hpp; unfold GetParent in Hpp.
      + destruct (depth f h q) as [m'|] eqn:Hq; [|done].
        destruct k as [|k]; simpl in Hin |- *; rewrite Hpw, Hpp in Hin |- *.
        * apply list_elem_of_singleton in Hin as ->. apply elem_of_cons. by left.
        * apply elem_of_cons in Hin as [->|Hin]; apply elem_of_cons; [by left|].
          right. by eapply IH.
      + destruct k; simpl in Hin |- *; by rewrite Hpw, Hpp in Hin |- *. }
  destruct (ancestors_depth _ _ _ _ _ Hdp Hin') as (mx & Hle & Hdx).
  assert (depth (S f) h this = Some (S m)) as Hd1 by (simpl; by rewrite Hw, Hp, Hdp).
  pose proof (depth_le_fuel _ _ _ _ Hdp).
  rewrite (depth_enough _ (S f) _ _ _ Hdx) in Hd1 by lia.
  injection Hd1 as ->. lia.
Qed.

Lemma IsChildOf_loop_None fuel h (target : option ptr) :
  IsChildOf_loop fuel h None target = Some false.
Proof. by destruct fuel. Qed.

Lemma IsChildOf_loop_ancestors h (target : option ptr) k : forall p m fuel,
  depth k h p = Some m -> (m < fuel)%nat ->
  IsChildOf_loop fuel h (Some p) target =
    Some (match target with
          | Some x => bool_decide (x ∈ ancestors k h p)
          | None => false
          end).
Proof.
  assert (forall p (l : list ptr),
            bool_decide (Some p = target) = true ->
            Some true = Some (match target with
                              | Some x => bool_decide (x ∈ p :: l)
                              | None => false
                              end)) as Hhit.
  { intros p l He%bool_decide_eq_true. subst target. f_equal. symmetry.
    apply bool_decide_eq_true_2, elem_of_cons. by left. }
  assert (forall p (l : list ptr),
            bool_decide (Some p = target) = false ->
            match target with
            | Some x => bool_decide (x ∈ p :: l)
            | None => false
            end = match target with
                  | Some x => bool_decide (x ∈ l)
                  | None => false
                  end) as Hmiss.
  { intros p l He%bool_decide_eq_false. destruct target as [x|]; [|done].
    apply bool_decide_ext. rewrite elem_of_cons. split; [|auto].
    intros [->|?]; [done|auto]. }
  induction k as [|k IH]; intros p m fuel Hd Hlt; simpl in Hd;
    (destruct (h !! p) as [pw|] eqn:Hpw; [|done]);
    (destruct fuel as [|f]; [lia|]); simpl; rewrite Hpw;
    unfold GetParent in *; destruct (parent pw) as [q|] eqn:Hpp; try done.
  - destruct (bool_decide (Some p = target)) eqn:He; [by apply Hhit|].
    rewrite IsChildOf_loop_None, (Hmiss _ _ He). f_equal.
    destruct target; [|done]. symmetry. apply bool_decide_eq_false_2.
    by intros ?%elem_of_nil.
  - destruct (depth k h q) as [m'|] eqn:Hq; [|done]. injection Hd as <-.
    destruct (bool_decide (Some p = target)) eqn:He; [by apply Hhit|].
    rewrite (IH q m' f Hq) by lia. by rewrite (Hmiss _ _ He).
  - destruct (bool_decide (Some p = target)) eqn:He; [by apply Hhit|].
    rewrite IsChildOf_loop_None, (Hmiss _ _ He). f_equal.
    destruct target; [|done]. symmetry. apply bool_decide_eq_false_2.
    by intros ?%elem_of_nil.
Qed.

(** X12.  For a window whose chain of parents is live and ends,
    [IsChildOf(win)] returns, and it is true exactly when [win] is one of the
    parents above the window; so it is false for [nullptr] and for the
    window itself, and true for the window's parent. *)
Theorem IsChildOf_ancestors fuel h this w n (target : option ptr) :
  h !! this = Some w ->
  depth fuel h this = Some n ->
  IsChildOf fuel h this target =
    Some (match target with
          | Some x => bool_decide (x ∈ tail (ancestors fuel h this))
          | None => false
          end)
  /\ IsChildOf fuel h this None = Some false
  /\ IsChildOf fuel h this (Some this) = Some false
  /\ (forall p, GetParent w = Some p -> IsChildOf fuel h this (Some p) = Some true).
Proof.
  intros Hw Hd.
  assert (forall t : option ptr, IsChildOf fuel h this t =
    Some (match t with
          | Some x => bool_decide (x ∈ tail (ancestors fuel h this))
          | None => false
          end)) as Heq.
  { intros t. unfold IsChildOf. rewrite Hw.
    destruct fuel as [|f]; simpl in Hd |- *; rewrite Hw in Hd |- *.
    - destruct (GetParent w) eqn:Hp; [done|]. unfold GetParent in Hp. rewrite Hp.
      simpl. destruct t; [|done].
      first [done | f_equal; symmetry; apply bool_decide_eq_false_2;
                    by intros ?%elem_of_nil].
    - destruct (GetParent w) as [p|] eqn:Hp; unfold GetParent in Hp; rewrite Hp.
      + destruct (depth f h p) as [m|] eqn:Hdp; [|done]. simpl.
        apply (IsChildOf_loop_ancestors h t f p m (S f) Hdp).
        apply depth_le_fuel in Hdp. lia.
      + simpl. destruct t; [|done].
        first [done | f_equal; symmetry; apply bool_decide_eq_false_2;
                      by intros ?%elem_of_nil]. }
  split_and!.
  - apply Heq.
  - apply (Heq None).
  - rewrite (Heq (Some this)). f_equal. apply bool_decide_eq_false_2.
    destruct fuel as [|f]; simpl; rewrite Hw.
    + destruct (parent w); by intros ?%elem_of_nil.
    + destruct (parent w) as [p|] eqn:Hp; [|by intros ?%elem_of_nil].
      simpl. by eapply not_own_ancestor.
  - intros p Hp. rewrite (Heq (Some p)). f_equal. apply bool_decide_eq_true_2.
    unfold GetParent in *.
    destruct fuel as [|f]; simpl in Hd |- *; unfold GetParent in *;
      rewrite Hw in Hd |- *; rewrite Hp in Hd |- *; [done|].
    simpl. destruct f; simpl; apply elem_of_cons; by left.
Qed.

(** *** Colours *)

(** X13.  [GetBackColor] after [SetBackColor]: after setting a colour the
    background is that colour whatever the focus and the shadow are; after
    setting a colour scheme it is what the scheme gives for the focus and
    the shadow of the window.  Both setters mark the window dirty and
    request one repaint. *)
Theorem SetBackColor_GetBackColor this s w :
  heap s !! this = Some w ->
  (forall clr : color_t, exists s' w',
      SetBackColor this clr s = Some (tt, s')
      /\ heap s' !! this = Some w'
      /\ GetBackColor s' this w' = clr
      /\ IsInvalid w' = true
      /\ trace s' = trace s ++ [gui_invalidate])
  /\ (forall sch : color_scheme, exists s' w',
      SetBackColor_scheme this sch s = Some (tt, s')
      /\ heap s' !! this = Some w'
      /\ GetBackColor s' this w' = sch (IsFocused s this) (IsShadowed w)
      /\ IsInvalid w' = true
      /\ trace s' = trace s ++ [gui_invalidate]).
Proof.
  intros Hw. split.
  - intros clr. unfold SetBackColor, bind, update. rewrite Hw.
    cbn [heap focused_ptr trace]. rewrite lookup_insert_eq, insert_insert_eq.
    erewrite Invalidate_default by (cbn; apply lookup_insert_eq).
    eexists _, _. split; [done|]. cbn. rewrite lookup_insert_eq. by split_and!.
  - intros sch. unfold SetBackColor_scheme, bind, update. rewrite Hw.
    cbn [heap focused_ptr trace]. rewrite lookup_insert_eq, insert_insert_eq.
    erewrite Invalidate_default by (cbn; apply lookup_insert_eq).
    eexists _, _. split; [done|]. cbn. rewrite lookup_insert_eq. by split_and!.
Qed.

(** *** Rectangles *)

Lemma GetRect_enough h k : forall p m fuel,
  depth k h p = Some m -> (m <= fuel)%nat -> GetRect fuel h p = GetRect k h p.
Proof.
  induction k as [|k IH]; intros p m fuel Hd Hle; simpl in Hd |- *;
    (destruct (h !! p) as [pw|] eqn:Hpw; [|done]);
    destruct (GetParent pw) as [q|] eqn:Hpp; try done.
  - destruct fuel; simpl; by rewrite Hpw, Hpp.
  - destruct (depth k h q) as [m'|] eqn:Hq; [|done]. injection Hd as <-.
    destruct fuel as [|f]; [lia|]. simpl. rewrite Hpw, Hpp.
    by rewrite (IH q m' f Hq) by lia.
  - destruct fuel; simpl; by rewrite Hpw, Hpp.
Qed.

Lemma GetRect_insert_other h this w0 k : forall p m,
  depth k h p = Some m -> this ∉ ancestors k h p ->
  GetRect k (<[this := w0]> h) p = GetRect k h p.
Proof.
  induction k as [|k IH]; intros p m Hd Hn; simpl in Hd, Hn |- *;
    (destruct (h !! p) as [pw|] eqn:Hpw; [|done]);
    (assert (this <> p) as Hne by (intros ->; apply Hn, elem_of_cons; by left));
    rewrite lookup_insert_ne by done; rewrite Hpw;
    unfold GetParent in *; destruct (parent pw) as [q|] eqn:Hpp; try done.
  destruct (depth k h q) as [m'|] eqn:Hq; [|done].
  assert (this ∉ ancestors k h q) as Hnq.
  { intros Hin. apply Hn, elem_of_cons. by right. }
  assert (this <> q) as Hneq.
  { intros ->. apply Hnq. destruct k; simpl; apply elem_of_cons; by left. }
  rewrite lookup_insert_ne by done. by rewrite (IH q m' Hq Hnq).
Qed.

(** X14.  [SetRect] and [GetRect].  On a window without parent [GetRect]
    returns the rectangle given to [SetRect].  On a window with a parent
    [SetRect] stores the parent's [TransformRect] of the rectangle, and
    [GetRect] returns the parent's [TransformRect] of the stored rectangle:
    the transformation is applied once on writing and once more on
    reading. *)
Theorem SetRect_GetRect fuel this rc s w n :
  heap s !! this = Some w ->
  depth fuel (heap s) this = Some n ->
  exists s' r1,
    SetRect fuel this rc s = Some (tt, s')
    /\ heap s' = <[this := with_rect r1 w]> (heap s)
    /\ focused_ptr s' = focused_ptr s
    /\ trace s' = trace s
    /\ match GetParent w with
       | None => r1 = rc /\ GetRect fuel (heap s') this = Some rc
       | Some p =>
           TransformRect fuel (heap s) p rc = Some r1
           /\ is_Some (TransformRect fuel (heap s) p r1)
           /\ GetRect fuel (heap s') this = TransformRect fuel (heap s) p r1
       end.
Proof.
  intros Hw Hd. unfold SetRect, bind, load, get_heap, lift, update. rewrite Hw.
  destruct (GetParent w) as [p|] eqn:Hp; cycle 1.
  { rewrite Hw. eexists _, rc. split; [done|]. cbn. split_and!; try done.
    destruct fuel; simpl; rewrite lookup_insert_eq; unfold GetParent in *; cbn;
      by rewrite Hp. }
  pose proof (fun k => not_own_ancestor _ _ _ _ _ _ k Hw Hp Hd) as Hacyc.
  destruct fuel as [|f]; simpl in Hd; rewrite Hw, Hp in Hd; [done|].
  destruct (depth f (heap s) p) as [m|] eqn:Hdp; [|done].
  destruct (depth_live _ _ _ _ Hdp) as [pw Hpw].
  pose proof (depth_le_fuel _ _ _ _ Hdp) as Hle.
  assert (GetRect (S f) (heap s) p = GetRect f (heap s) p) as Hsame
    by (apply (GetRect_enough _ _ _ _ _ Hdp); lia).
  destruct (depth_GetRect _ _ _ _ Hdp) as [pr Hpr].
  assert (this <> p) as Hne.
  { intros ->. apply (Hacyc f). destruct f; simpl; apply elem_of_cons; by left. }
  unfold TransformRect. rewrite Hpw, Hsame, Hpr. cbn [heap]. rewrite Hw.
  eexists _, _. split; [done|]. cbn [heap focused_ptr trace].
  split_and!; try done; try (by eexists).
  simpl. rewrite lookup_insert_eq. unfold GetParent in *. cbn [parent with_rect].
  rewrite Hp. rewrite lookup_insert_ne by done. rewrite Hpw.
  rewrite (GetRect_insert_other _ _ _ _ _ _ Hdp (Hacyc f)). by rewrite Hpr.
Qed.

(** *** Sub-windows, construction and destruction *)

(** X15.  [UnregisterSubWin] on a window that is not the parent of [win]
    does nothing: the overrider of [unregisterSubWin] is not reached, the
    window is not invalidated and the inactivity timeout is not reset. *)
Theorem UnregisterSubWin_not_parent hook fuel this win s cw :
  heap s !! win = Some cw ->
  GetParent cw <> Some this ->
  UnregisterSubWin hook fuel this win s = Some (tt, s).
Proof.
  intros Hcw Hp. unfold UnregisterSubWin, bind, load. rewrite Hcw.
  by rewrite bool_decide_eq_false_2.
Qed.

(** X16.  On a parent of base class [window_t], [RegisterSubWin] returns
    false even when the rectangle of the child is contained in the parent's.
    In that case the call has nevertheless reset the inactivity timeout and,
    when the parent has relative sub-windows, set that flag on the child;
    when the child is not contained, nothing has changed. *)
Theorem RegisterSubWin_base_returns_false fuel this win s pr cr pw cw :
  GetRect fuel (heap s) this = Some pr ->
  GetRect fuel (heap s) win = Some cr ->
  heap s !! this = Some pw ->
  heap s !! win = Some cw ->
  exists s',
    RegisterSubWin registerSubWin fuel this win s = Some (false, s')
    /\ focused_ptr s' = focused_ptr s
    /\ if Contain pr cr
       then trace s' = trace s ++ [Screens_ResetTimeout]
            /\ heap s' =
                 (if has_relative_subwins (flags pw)
                  then <[win := with_flags (set_has_relative_subwins true) cw]> (heap s)
                  else heap s)
       else s' = s.
Proof.
  intros Hpr Hcr Hpw Hcw.
  rewrite (RegisterSubWin_live _ _ _ _ _ _ _ _ _ Hpr Hcr Hpw Hcw).
  unfold registerSubWin. destruct (Contain pr cr); [|by exists s].
  eexists. split; [done|]. by destruct (has_relative_subwins (flags pw)).
Qed.

Lemma RegisterSubWin_base_shape fuel p this s c b s' :
  heap s !! this = Some c ->
  RegisterSubWin registerSubWin fuel p this s = Some (b, s') ->
  exists c1, heap s' = <[this := c1]> (heap s)
             /\ GetParent c1 = GetParent c
             /\ focused_ptr s' = focused_ptr s.
Proof.
  intros Hc. unfold RegisterSubWin, bind, get_heap, lift, load, when,
    SetRelativeSubwins, update, emit, ret, registerSubWin.
  destruct (GetRect fuel (heap s) p); [|done].
  destruct (GetRect fuel (heap s) this); [|done].
  destruct (negb (Contain _ _)).
  { intros [= <- <-]. exists c. by rewrite insert_id. }
  destruct (heap s !! p) as [pw|]; [|done].
  destruct (has_relative_subwins (flags pw)).
  - rewrite Hc. intros [= <- <-]. by eexists.
  - intros [= <- <-]. exists c. by rewrite insert_id.
Qed.

(** X17.  Constructing a window of base class on fresh storage and
    destroying it again gives back the windows and the focus there were,
    except that a parent with a non-empty rectangle is left dirty (the
    destructor invalidates it through [addInvalidationRect]). *)
Theorem new_then_delete cb fuel this parent r ty cl s :
  heap s !! this = None ->
  focused_ptr s <> Some this ->
  chain_ok fuel (heap s) parent = true ->
  exists s1 s2,
    window_t_ctor registerSubWin cb fuel this parent r ty cl s = Some (tt, s1)
    /\ destroy unregisterSubWin fuel this s1 = Some (tt, s2)
    /\ focused_ptr s2 = focused_ptr s
    /\ heap s2 =
         match parent with
         | None => heap s
         | Some p =>
             match heap s !! p with
             | Some pw =>
                 if IsEmpty (rect pw) then heap s
                 else <[p := with_flags (set_invalid true) pw]> (heap s)
             | None => heap s
             end
         end.
Proof.
  intros Hfresh Hfoc Hok.
  destruct (ctor_live invalid registerSubWin cb fuel this parent r ty cl s)
    as (s1 & w1 & He & Hw1 & _ & Hshape); [done..|apply registerSubWin_keeps|].
  assert (exists c1, heap s1 = <[this := c1]> (heap s)
                     /\ GetParent c1 = parent
                     /\ focused_ptr s1 = focused_ptr s) as (c1 & Hh1 & Hp1 & Hf1).
  { destruct parent as [p|].
    - destruct Hshape as [b Hreg].
      eapply RegisterSubWin_base_shape in Hreg as (c1 & Hh & Hpp & Hff);
        [|cbn; apply lookup_insert_eq].
      exists c1. cbn in Hh. by rewrite insert_insert_eq in Hh.
    - subst s1. by eexists. }
  assert (heap s1 !! this = Some c1) as Hc1 by (rewrite Hh1; apply lookup_insert_eq).
  exists s1. unfold destroy, bind. rewrite (dtor_eq _ _ _ _ _ Hc1). cbn zeta.
  unfold IsFocused, GetFocusedWindow. rewrite Hf1.
  rewrite bool_decide_eq_false_2 by done. rewrite Hp1.
  destruct parent as [p|]; cycle 1.
  { eexists. split; [done|]. split; [done|]. cbn. split; [done|].
    rewrite Hh1. by apply delete_insert_id. }
  unfold chain_ok in Hok.
  destruct (depth fuel (heap s) p) as [n|] eqn:Hd; [|done].
  apply bool_decide_eq_true in Hok.
  destruct fuel as [|k]; [lia|].
  destruct (depth_live _ _ _ _ Hd) as [pw Hpw].
  assert (p <> this) as Hne by congruence.
  pose proof (depth_insert_fresh _ _ _ c1 _ _ Hfresh Hd) as Hd0.
  assert (depth (S k) (heap s1) this = Some (S n)) as Hdt.
  { rewrite Hh1. simpl. rewrite lookup_insert_eq, Hp1.
    rewrite (depth_enough _ k _ _ _ Hd0); [done|lia]. }
  destruct (depth_GetRect _ _ _ _ Hdt) as [cr Hcr].
  assert (heap s1 !! p = Some pw) as Hpw1.
  { rewrite Hh1. by rewrite lookup_insert_ne. }
  erewrite UnregisterSubWin_live; [|done..].
  eexists. split; [done|]. split; [done|]. unfold unregisterSubWin, release.
  cbn [snd heap focused_ptr trace traced]. rewrite Hpw.
  destruct (IsEmpty (rect pw)); cbn [heap focused_ptr touched].
  - split; [done|]. rewrite Hh1. by apply delete_insert_id.
  - split; [done|]. rewrite Hh1. rewrite delete_insert_ne by done.
    by rewrite delete_insert_id.
Qed.

(** *** Capture, dialogs and the repaint cycle *)

(** X18.  [GetCapturedWindow] of the base class looks at the visible flag
    only: it returns the window exactly when the flag is set, so also for a
    window that is hidden behind a dialog and hence not effectively visible,
    and it returns [nullptr] for a window without the flag even when capture
    is enforced.  The state is not changed. *)
Theorem GetCapturedWindow_visible_flag this s w :
  heap s !! this = Some w ->
  exists res,
    GetCapturedWindow this s = Some (res, s)
    /\ (res = Some this <-> HasVisibleFlag w = true)
    /\ (res = None <-> HasVisibleFlag w = false)
    /\ (IsVisible w = true -> res = Some this)
    /\ (HasVisibleFlag w = true -> IsHiddenBehindDialog w = true ->
        res = Some this /\ IsVisible w = false)
    /\ (HasVisibleFlag w = false -> HasEnforcedCapture w = true ->
        res = None /\ IsCapturable w = true).
Proof.
  intros Hw. unfold GetCapturedWindow, bind, load, ret. rewrite Hw.
  eexists. split; [done|].
  unfold IsCapturable, IsVisible, HasVisibleFlag, IsHiddenBehindDialog, HasEnforcedCapture.
  destruct (visible (flags w)), (hidden_behind_dialog (flags w)),
    (enforce_capture_when_not_visible (flags w)); cbn; by split_and!.
Qed.

(** X19.  [HideBehindDialog] followed by [ShowAfterDialog] on a window that
    was not behind a dialog: the hidden-behind-dialog flag is clear again,
    every other member but the invalid flag is as before, the window is
    dirty and two repaints have been requested. *)
Theorem HideBehindDialog_then_ShowAfterDialog this s w :
  heap s !! this = Some w ->
  IsHiddenBehindDialog w = false ->
  bind (HideBehindDialog this) (fun _ => ShowAfterDialog this) s =
    Some (tt, touched s this (with_flags (set_invalid true)) w
                [gui_invalidate; gui_invalidate]).
Proof.
  intros Hw Hh. unfold IsHiddenBehindDialog in Hh. unfold bind at 1.
  rewrite (HideBehindDialog_live _ _ _ Hw), Hh.
  erewrite ShowAfterDialog_live by (cbn; apply lookup_insert_eq).
  unfold touched; cbn. rewrite insert_insert_eq, <- app_assoc. do 3 f_equal.
  destruct w as [? ? ? [] ? ?]; cbn in *. by subst.
Qed.

(** Replacing a window by one with the same parent, rectangle and
    relative-sub-windows flag changes no [GetRect]. *)
Lemma GetRect_insert_same h this w w0 :
  h !! this = Some w ->
  parent w0 = parent w -> rect w0 = rect w ->
  has_relative_subwins (flags w0) = has_relative_subwins (flags w) ->
  forall fuel x, GetRect fuel (<[this := w0]> h) x = GetRect fuel h x.
Proof.
  intros Hw Hp Hr Hf.
  assert (forall x, match <[this := w0]> h !! x, h !! x with
                    | Some a, Some b =>
                        parent a = parent b /\ rect a = rect b
                        /\ has_relative_subwins (flags a) = has_relative_subwins (flags b)
                    | None, None => True
                    | _, _ => False
                    end) as Hsim.
  { intros x. destruct (decide (this = x)) as [<-|Hne].
    - by rewrite lookup_insert_eq, Hw.
    - rewrite lookup_insert_ne by done. by destruct (h !! x). }
  induction fuel as [|k IH]; intros x; simpl; unfold GetParent, TransformRect_with.
  - specialize (Hsim x). destruct (<[this:=w0]> h !! x) as [a|], (h !! x) as [b|];
      try done. destruct Hsim as (-> & -> & _). done.
  - pose proof (Hsim x) as Hx.
    destruct (<[this:=w0]> h !! x) as [a|], (h !! x) as [b|]; try done.
    destruct Hx as (-> & -> & _). destruct (parent b) as [q|]; [|done].
    rewrite IH. pose proof (Hsim q) as Hq.
    destruct (<[this:=w0]> h !! q) as [qa|], (h !! q) as [qb|]; try done.
    destruct Hq as (_ & _ & ->). done.
Qed.

(** X20.  The repaint cycle: [Invalidate()] followed by [Draw] on an
    effectively visible window of non-zero width and height requests a
    repaint, fills the window's rectangle once with its background colour
    and leaves the window valid. *)
Theorem Invalidate_then_Draw fuel this s w r :
  heap s !! this = Some w ->
  GetRect fuel (heap s) this = Some r ->
  IsVisible w = true ->
  Width (rect w) <> 0 ->
  Height (rect w) <> 0 ->
  bind (Invalidate this Rect16_ctor) (fun _ => Draw fuel this) s =
    Some (tt, touched s this (with_flags (set_invalid false)) w
                [gui_invalidate; display_FillRect r (GetBackColor s this w)]).
Proof.
  intros Hw Hr Hv Hwd Hht. unfold bind. rewrite (Invalidate_default _ _ _ Hw).
  erewrite Draw_live; [|cbn; apply lookup_insert_eq|]; cycle 1.
  { cbn. rewrite (GetRect_insert_same _ _ w); [exact Hr|done..]. }
  unfold drawable, IsInvalid. cbn [flags with_flags invalid set_invalid rect andb].
  apply Z.eqb_neq in Hwd, Hht. rewrite Hwd, Hht. cbn [negb andb].
  assert (IsVisible (with_flags (set_invalid true) w) = true) as -> by exact Hv.
  unfold touched; cbn. rewrite insert_insert_eq, <- app_assoc. done.
Qed.

End proofs.

(** * The properties on the example states *)

Lemma s_session_reachable : reachable 0 Ex.s_session.
Proof.
  apply (reachable_run_ops 0 2 Ex.session gui_init); [constructor|].
  vm_compute. reflexivity.
Defined.

Lemma focus_at_most_one_witness :
  reachable 0 Ex.s_session
  /\ ((forall p1 p2 : ptr,
         IsFocused Ex.s_session p1 = true -> IsFocused Ex.s_session p2 = true -> p1 = p2)
      /\ (forall f, IsFocused Ex.s_session f = true -> is_Some (heap Ex.s_session !! f))
      /\ (forall this w,
            heap Ex.s_session !! this = Some w -> IsVisible w = true ->
            IsEnabled w = true ->
            exists s', SetFocus this Ex.s_session = Some (tt, s')
                       /\ IsFocused s' this = true
                       /\ forall v, v <> this -> IsFocused s' v = false)
      /\ (forall this fuel n,
            IsFocused Ex.s_session this = true ->
            depth fuel (heap Ex.s_session) this = Some n ->
            exists s', destroy unregisterSubWin fuel this Ex.s_session = Some (tt, s')
                       /\ GetFocusedWindow s' = None
                       /\ heap s' !! this = None)).
Proof.
  split; [exact s_session_reachable|].
  exact (focus_at_most_one 0 Ex.s_session s_session_reachable).
Defined.

Lemma click_closes_or_bubbles_up_witness :
  heap Ex.s_two !! 2%positive = Some Ex.button
  /\ parent Ex.button = Some 1%positive
  /\ depth 1 (heap Ex.s_two) 2%positive = Some 1%nat
  /\ ((close_on_click (flags Ex.button) = yes ->
         WindowEvent 1 2%positive (Some 2%positive) CLICK 0 Ex.s_two =
           Some (tt, traced Ex.s_two
                       [EventLock 2%positive (Some 2%positive) CLICK; Screens_Close]))
      /\ (close_on_click (flags Ex.button) <> yes ->
         WindowEvent 1 2%positive (Some 2%positive) CLICK 0 Ex.s_two =
           WindowEvent 0 1%positive (Some 2%positive) CLICK 0
             (traced Ex.s_two [EventLock 2%positive (Some 2%positive) CLICK]))
      /\ exists l,
           WindowEvent 1 2%positive (Some 2%positive) CLICK 0 Ex.s_two
             = Some (tt, traced Ex.s_two l)
           /\ bubble (heap Ex.s_two) 2%positive (Some 2%positive) l
           /\ receivers l `prefix_of` ancestors 1 (heap Ex.s_two) 2%positive
           /\ (length (receivers l) <= 2)%nat).
Proof.
  split; [reflexivity|]. split; [reflexivity|]. split; [reflexivity|].
  apply (click_closes_or_bubbles_up 0 2%positive (Some 2%positive) 0 Ex.s_two
           Ex.button 1%positive 1%nat); reflexivity.
Defined.

(** C3 as it is written fails for a rectangle of zero area: the screen of
    [Ex.s_two] is valid, [Ex.far_empty] does not intersect its rectangle,
    and yet [Invalidate] marks the screen dirty and requests a repaint. *)
Lemma Invalidate_empty_rect_counterexample :
  heap Ex.s_two !! 1%positive = Some Ex.screen
  /\ IsInvalid Ex.screen = false
  /\ HasIntersection (rect Ex.screen) Ex.far_empty = false
  /\ (exists s', Invalidate 1%positive Ex.far_empty Ex.s_two = Some (tt, s')
                 /\ (IsInvalid <$> heap s' !! 1%positive) = Some true
                 /\ trace s' = trace Ex.s_two ++ [gui_invalidate])
  /\ ~ (exists s', Invalidate 1%positive Ex.far_empty Ex.s_two = Some (tt, s')
                   /\ (IsInvalid <$> heap s' !! 1%positive) = Some (IsInvalid Ex.screen)
                   /\ trace s' = trace Ex.s_two).
Proof.
  split; [reflexivity|]. split; [reflexivity|]. split; [reflexivity|]. split.
  - eexists. split; [vm_compute; reflexivity|]. split; reflexivity.
  - intros (s' & Hs & Hi & _). vm_compute in Hs. injection Hs as <-.
    vm_compute in Hi. discriminate.
Qed.

Lemma Invalidate_iff_empty_or_intersects_witness :
  heap Ex.s_two !! 1%positive = Some Ex.screen
  /\ exists s', Invalidate 1%positive Ex.button_rect Ex.s_two = Some (tt, s') /\
       if IsEmpty Ex.button_rect || HasIntersection (rect Ex.screen) Ex.button_rect
       then heap s' !! 1%positive = Some (with_flags (set_invalid true) Ex.screen)
            /\ (forall w', heap s' !! 1%positive = Some w' -> IsInvalid w' = true)
            /\ trace s' = trace Ex.s_two ++ [gui_invalidate]
       else s' = Ex.s_two.
Proof.
  split; [reflexivity|].
  apply (Invalidate_iff_empty_or_intersects 1%positive Ex.button_rect Ex.s_two Ex.screen).
  reflexivity.
Defined.

(** C4 as it is written fails for a hidden window: the screen of
    [Ex.s_hidden] is invalid, has non-zero width and height and is not
    visible; [Draw] does not repaint it, and marks it valid. *)
Lemma Draw_hidden_counterexample :
  heap Ex.s_hidden !! 1%positive = Some Ex.hidden_dirty
  /\ IsInvalid Ex.hidden_dirty = true
  /\ Width (rect Ex.hidden_dirty) = 240
  /\ Height (rect Ex.hidden_dirty) = 320
  /\ IsVisible Ex.hidden_dirty = false
  /\ (exists s', Draw 0 1%positive Ex.s_hidden = Some (tt, s')
                 /\ trace s' = trace Ex.s_hidden
                 /\ (IsInvalid <$> heap s' !! 1%positive) = Some false)
  /\ ~ (exists s', Draw 0 1%positive Ex.s_hidden = Some (tt, s')
                   /\ (IsInvalid <$> heap s' !! 1%positive) = Some true).
Proof.
  do 5 (split; [reflexivity|]). split.
  - eexists. split; [vm_compute; reflexivity|]. split; reflexivity.
  - intros (s' & Hs & Hi). vm_compute in Hs. injection Hs as <-.
    vm_compute in Hi. discriminate.
Qed.

Lemma Draw_repaints_visible_validates_invalid_witness :
  heap Ex.s_hidden !! 1%positive = Some Ex.hidden_dirty
  /\ GetRect 0 (heap Ex.s_hidden) 1%positive = Some Ex.screen_rect
  /\ exists s', Draw 0 1%positive Ex.s_hidden = Some (tt, s') /\
       if IsInvalid Ex.hidden_dirty && negb (Width (rect Ex.hidden_dirty) =? 0)
          && negb (Height (rect Ex.hidden_dirty) =? 0)
       then heap s' !! 1%positive = Some (with_flags (set_invalid false) Ex.hidden_dirty)
            /\ trace s' = trace Ex.s_hidden ++
                 (if IsVisible Ex.hidden_dirty
                  then [display_FillRect Ex.screen_rect
                          (GetBackColor Ex.s_hidden 1%positive Ex.hidden_dirty)]
                  else [])
       else s' = Ex.s_hidden.
Proof.
  split; [reflexivity|]. split; [reflexivity|].
  apply (Draw_repaints_visible_validates_invalid 0 1%positive Ex.s_hidden
           Ex.hidden_dirty Ex.screen_rect); reflexivity.
Defined.

Lemma RegisterSubWin_needs_containment_witness :
  GetRect 1 (heap Ex.s_two) 1%positive = Some Ex.screen_rect
  /\ GetRect 1 (heap Ex.s_two) 2%positive = Some Ex.button_rect
  /\ ((Contain Ex.screen_rect Ex.button_rect = false ->
         RegisterSubWin Ex.accept 1 1%positive 2%positive Ex.s_two
           = Some (false, Ex.s_two))
      /\ (forall s', RegisterSubWin Ex.accept 1 1%positive 2%positive Ex.s_two
                       = Some (true, s') ->
                     Contain Ex.screen_rect Ex.button_rect = true)
      /\ (Contain Ex.screen_rect Ex.button_rect = true ->
          exists s1, RegisterSubWin Ex.accept 1 1%positive 2%positive Ex.s_two
                       = Some (Ex.accept 1%positive 2%positive s1))).
Proof.
  split; [reflexivity|]. split; [reflexivity|].
  apply (RegisterSubWin_needs_containment Ex.accept 1 1%positive 2%positive Ex.s_two
           Ex.screen_rect Ex.button_rect); reflexivity.
Defined.

Lemma accept_keeps f : hook_keeps f Ex.accept.
Proof. intros this win s w Hw. exists w. repeat split; auto. Qed.

(** C6 as it is written fails when the parent does not take the window.
    First: the screen of [Ex.s_two] is of base class [window_t]; a window
    constructed on it with a rectangle inside the screen's is not registered,
    [RegisterSubWin] returns false and the screen is as it was.  Second: on
    the screen of [Ex.s_rel], whose overrider accepts every window, a window
    constructed with a rectangle outside the screen's is not registered
    either: the overrider is not reached. *)
Lemma ctor_not_registered_counterexample :
  (exists s',
     window_t_ctor registerSubWin 0 2 3%positive (Some 1%positive) Ex.button_rect
       normal yes Ex.s_two = Some (tt, s')
     /\ GetRect 2 (heap s') 1%positive = Some Ex.screen_rect
     /\ GetRect 2 (heap s') 3%positive = Some Ex.button_rect
     /\ Contain Ex.screen_rect Ex.button_rect = true
     /\ RegisterSubWin registerSubWin 2 1%positive 3%positive
          (touched Ex.s_two 3%positive id
             (constructed 0 (Some 1%positive) Ex.button_rect normal yes) [gui_invalidate])
        = Some (false, s')
     /\ heap s' !! 1%positive = Some Ex.screen
     /\ heap s' !! 2%positive = Some Ex.button)
  /\ (exists s',
        window_t_ctor Ex.accept 0 2 3%positive (Some 1%positive) Ex.outside_rect
          normal yes Ex.s_rel = Some (tt, s')
        /\ RegisterSubWin Ex.accept 2 1%positive 3%positive
             (touched Ex.s_rel 3%positive id
                (constructed 0 (Some 1%positive) Ex.outside_rect normal yes)
                [gui_invalidate])
           = Some (false, s')
        /\ s' = touched Ex.s_rel 3%positive id
                  (constructed 0 (Some 1%positive) Ex.outside_rect normal yes)
                  [gui_invalidate])
  /\ ~ (exists s', RegisterSubWin registerSubWin 2 1%positive 3%positive
                     (touched Ex.s_two 3%positive id
                        (constructed 0 (Some 1%positive) Ex.button_rect normal yes)
                        [gui_invalidate])
                   = Some (true, s'))
  /\ ~ (exists s', RegisterSubWin Ex.accept 2 1%positive 3%positive
                     (touched Ex.s_rel 3%positive id
                        (constructed 0 (Some 1%positive) Ex.outside_rect normal yes)
                        [gui_invalidate])
                   = Some (true, s')).
Proof.
  split_and!.
  - eexists. split; [vm_compute; reflexivity|]. by split_and!.
  - eexists. split; [vm_compute; reflexivity|]. by split_and!.
  - intros [s' Hs]. vm_compute in Hs. discriminate Hs.
  - intros [s' Hs]. vm_compute in Hs. discriminate Hs.
Qed.

Lemma ctor_registers_through_overrider_witness :
  heap Ex.s_two !! 3%positive = None
  /\ chain_ok 2 (heap Ex.s_two) (Some 1%positive) = true
  /\ hook_keeps invalid Ex.accept
  /\ exists s' w',
       window_t_ctor Ex.accept 0 2 3%positive (Some 1%positive) Ex.button_rect
         normal yes Ex.s_two = Some (tt, s')
       /\ heap s' !! 3%positive = Some w'
       /\ IsInvalid w' = true
       /\ exists pr cr pw,
            GetRect 2
              (heap (touched Ex.s_two 3%positive id
                       (constructed 0 (Some 1%positive) Ex.button_rect normal yes)
                       [gui_invalidate]))
              1%positive = Some pr
            /\ GetRect 2
                 (heap (touched Ex.s_two 3%positive id
                          (constructed 0 (Some 1%positive) Ex.button_rect normal yes)
                          [gui_invalidate]))
                 3%positive = Some cr
            /\ heap Ex.s_two !! 1%positive = Some pw
            /\ if Contain pr cr
               then s' = snd (Ex.accept 1%positive 3%positive
                    (if has_relative_subwins (flags pw)
                     then touched
                            (touched Ex.s_two 3%positive id
                               (constructed 0 (Some 1%positive) Ex.button_rect normal yes)
                               [gui_invalidate])
                            3%positive (with_flags (set_has_relative_subwins true))
                            (constructed 0 (Some 1%positive) Ex.button_rect normal yes)
                            [Screens_ResetTimeout]
                     else traced
                            (touched Ex.s_two 3%positive id
                               (constructed 0 (Some 1%positive) Ex.button_rect normal yes)
                               [gui_invalidate])
                            [Screens_ResetTimeout]))
               else s' = touched Ex.s_two 3%positive id
                           (constructed 0 (Some 1%positive) Ex.button_rect normal yes)
                           [gui_invalidate].
Proof.
  split; [reflexivity|]. split; [reflexivity|].
  split; [apply accept_keeps|].
  apply (ctor_registers_through_overrider Ex.accept 0 2 3%positive (Some 1%positive)
           Ex.button_rect normal yes Ex.s_two);
    [reflexivity|reflexivity|apply accept_keeps].
Defined.

Lemma dtor_effects_witness :
  heap Ex.s_focus !! 2%positive = Some Ex.button
  /\ depth 1 (heap Ex.s_focus) 2%positive = Some 1%nat
  /\ (forall p c (s0 : gui (Rect16:=Ex.R)),
        focused_ptr (snd (unregisterSubWin p c s0)) = focused_ptr s0)
  /\ exists s2 s',
       window_t_dtor unregisterSubWin 1 2%positive Ex.s_focus = Some (tt, s')
       /\ (UnregisterSubWin unregisterSubWin 1 1%positive 2%positive
             (mkGui (heap Ex.s_focus) None
                (trace Ex.s_focus ++ [gui_timers_delete_by_window 2%positive]))
           = Some (tt, s2)
           /\ exists s1', s2 = traced (snd (unregisterSubWin 1%positive 2%positive s1'))
                                 [Screens_ResetTimeout])
       /\ s' = traced s2 [Screens_ResetTimeout]
       /\ focused_ptr s' = None.
Proof.
  split; [reflexivity|]. split; [reflexivity|]. split; [reflexivity|].
  apply (dtor_effects unregisterSubWin 1 2%positive Ex.s_focus Ex.button 1%nat);
    reflexivity.
Defined.

Lemma IsVisible_flag_and_not_behind_dialog_witness :
  heap Ex.s_two !! 1%positive = Some Ex.screen
  /\ ((IsVisible Ex.screen = true <->
         HasVisibleFlag Ex.screen = true /\ IsHiddenBehindDialog Ex.screen = false)
      /\ (exists s1 w1, ShowAfterDialog 1%positive Ex.s_two = Some (tt, s1)
            /\ heap s1 !! 1%positive = Some w1
            /\ HasVisibleFlag w1 = HasVisibleFlag Ex.screen
            /\ IsHiddenBehindDialog w1 = false
            /\ IsVisible w1 = HasVisibleFlag Ex.screen)
      /\ (exists s2 w2, HideBehindDialog 1%positive Ex.s_two = Some (tt, s2)
            /\ heap s2 !! 1%positive = Some w2
            /\ HasVisibleFlag w2 = HasVisibleFlag Ex.screen
            /\ IsHiddenBehindDialog w2 = true
            /\ IsVisible w2 = false)).
Proof.
  split; [reflexivity|].
  apply (IsVisible_flag_and_not_behind_dialog 1%positive Ex.s_two Ex.screen).
  reflexivity.
Defined.

Lemma SetFocus_noop_witness :
  heap Ex.s_hidden !! 1%positive = Some Ex.hidden_dirty
  /\ (IsVisible Ex.hidden_dirty = false \/ IsEnabled Ex.hidden_dirty = false
      \/ IsFocused Ex.s_hidden 1%positive = true)
  /\ SetFocus 1%positive Ex.s_hidden = Some (tt, Ex.s_hidden).
Proof.
  split; [reflexivity|]. split; [left; reflexivity|].
  apply (SetFocus_noop 1%positive Ex.s_hidden Ex.hidden_dirty);
    [reflexivity|left; reflexivity].
Defined.

Lemma ctor_enabled_iff_close_on_click_witness :
  heap Ex.s_two !! 3%positive = None
  /\ chain_ok 2 (heap Ex.s_two) (Some 2%positive) = true
  /\ hook_keeps enabled (registerSubWin (Rect16:=Ex.R))
  /\ exists s' w',
       window_t_ctor registerSubWin 0 2 3%positive (Some 2%positive) Ex.button_rect
         normal no Ex.s_two = Some (tt, s')
       /\ heap s' !! 3%positive = Some w'
       /\ (IsEnabled w' = true <-> no = yes).
Proof.
  split; [reflexivity|]. split; [reflexivity|].
  split; [apply registerSubWin_keeps|].
  apply (ctor_enabled_iff_close_on_click registerSubWin 0 2 3%positive (Some 2%positive)
           Ex.button_rect normal no Ex.s_two);
    [reflexivity|reflexivity|apply registerSubWin_keeps].
Defined.

(** ** Further properties on the example states *)

Lemma Validate_effect_witness :
  heap Ex.s_hidden !! 1%positive = Some Ex.hidden_dirty
  /\ exists s', Validate 1%positive Ex.button_rect Ex.s_hidden = Some (tt, s')
       /\ focused_ptr s' = focused_ptr Ex.s_hidden
       /\ trace s' = trace Ex.s_hidden
       /\ if IsEmpty Ex.button_rect || HasIntersection (rect Ex.hidden_dirty) Ex.button_rect
          then heap s' = <[1%positive := with_flags (set_invalid false) Ex.hidden_dirty]>
                           (heap Ex.s_hidden)
          else s' = Ex.s_hidden.
Proof.
  split; [reflexivity|].
  apply (Validate_effect 1%positive Ex.button_rect Ex.s_hidden Ex.hidden_dirty).
  reflexivity.
Defined.

Lemma Invalidate_then_Validate_witness :
  heap Ex.s_two !! 1%positive = Some Ex.screen
  /\ exists s', bind (Invalidate 1%positive Ex.button_rect)
                  (fun _ => Validate 1%positive Ex.button_rect) Ex.s_two = Some (tt, s')
       /\ if IsEmpty Ex.button_rect || HasIntersection (rect Ex.screen) Ex.button_rect
          then heap s' = <[1%positive := with_flags (set_invalid false) Ex.screen]>
                           (heap Ex.s_two)
               /\ focused_ptr s' = focused_ptr Ex.s_two
               /\ trace s' = trace Ex.s_two ++ [gui_invalidate]
          else s' = Ex.s_two.
Proof.
  split; [reflexivity|].
  apply (Invalidate_then_Validate 1%positive Ex.button_rect Ex.s_two Ex.screen).
  reflexivity.
Defined.

Lemma Draw_twice_witness :
  Draw 0 1%positive Ex.s_dirty = Some (tt, Ex.s_painted)
  /\ Draw 0 1%positive Ex.s_painted = Some (tt, Ex.s_painted).
Proof.
  split; [vm_compute; reflexivity|].
  apply (Draw_twice 0 1%positive Ex.s_dirty Ex.s_painted).
  vm_compute; reflexivity.
Defined.

Lemma Show_effect_witness :
  heap Ex.s_hidden !! 1%positive = Some Ex.hidden_dirty
  /\ (forall p, GetParent Ex.hidden_dirty = Some p -> is_Some (heap Ex.s_hidden !! p))
  /\ Show 1%positive Ex.s_hidden =
       Some (tt, touched Ex.s_hidden 1%positive
                   (fun w => with_flags (set_invalid true) (with_flags (set_visible true) w))
                   Ex.hidden_dirty [gui_invalidate]).
Proof.
  split; [reflexivity|]. split; [intros p H; discriminate H|].
  apply (Show_effect 1%positive Ex.s_hidden Ex.hidden_dirty);
    [reflexivity|intros p H; discriminate H].
Defined.

Lemma Hide_effect_witness :
  heap Ex.s_two !! 2%positive = Some Ex.button
  /\ (forall p, GetParent Ex.button = Some p -> is_Some (heap Ex.s_two !! p))
  /\ Hide 2%positive Ex.s_two =
       Some (tt, touched Ex.s_two 2%positive
                   (fun w => with_flags (set_invalid true) (with_flags (set_visible false) w))
                   Ex.button [gui_invalidate]).
Proof.
  assert (forall p, GetParent Ex.button = Some p -> is_Some (heap Ex.s_two !! p)) as Hp.
  { intros p H. injection H as <-. exists Ex.screen. reflexivity. }
  split; [reflexivity|]. split; [exact Hp|].
  apply (Hide_effect 2%positive Ex.s_two Ex.button); [reflexivity|exact Hp].
Defined.

Lemma Shadow_Unshadow_witness :
  heap Ex.s_two !! 1%positive = Some Ex.screen
  /\ IsShadowed Ex.screen = false
  /\ exists s1 s2,
       Shadow 1%positive Ex.s_two = Some (tt, s1)
       /\ Shadow 1%positive s1 = Some (tt, s1)
       /\ Unshadow 1%positive s1 = Some (tt, s2)
       /\ heap s2 = <[1%positive := with_flags (set_invalid true) Ex.screen]> (heap Ex.s_two)
       /\ focused_ptr s2 = focused_ptr Ex.s_two
       /\ trace s2 = trace Ex.s_two ++ [gui_invalidate; gui_invalidate].
Proof.
  split; [reflexivity|]. split; [reflexivity|].
  apply (Shadow_Unshadow 1%positive Ex.s_two Ex.screen); reflexivity.
Defined.

Lemma SetFocus_events_witness :
  heap Ex.s_focus !! 1%positive = Some Ex.screen
  /\ IsVisible Ex.screen = true
  /\ IsEnabled Ex.screen = true
  /\ focused_ptr Ex.s_focus = Some 2%positive
  /\ 2%positive <> 1%positive
  /\ heap Ex.s_focus !! 2%positive = Some Ex.button
  /\ SetFocus 1%positive Ex.s_focus =
       Some (tt, mkGui
                   (<[1%positive := with_flags (set_invalid true) Ex.screen]>
                      (<[2%positive := with_flags (set_invalid true) Ex.button]>
                         (heap Ex.s_focus)))
                   (Some 1%positive)
                   (trace Ex.s_focus
                      ++ [gui_invalidate; EventLock 2%positive (Some 2%positive) FOCUS0;
                          gui_invalidate; EventLock 1%positive (Some 1%positive) FOCUS1;
                          gui_invalidate])).
Proof.
  do 4 (split; [reflexivity|]). split; [discriminate|]. split; [reflexivity|].
  apply (SetFocus_events 1%positive 2%positive Ex.s_focus Ex.screen Ex.button);
    [reflexivity..|discriminate|reflexivity].
Defined.

Lemma SetFocus_twice_witness :
  SetFocus 1%positive Ex.s_focus = Some (tt, Ex.s_refocused)
  /\ SetFocus 1%positive Ex.s_refocused = Some (tt, Ex.s_refocused).
Proof.
  split; [vm_compute; reflexivity|].
  apply (SetFocus_twice 1%positive Ex.s_focus Ex.s_refocused).
  vm_compute; reflexivity.
Defined.

Lemma WindowEvent_changes_trace_only_witness :
  WindowEvent 1 2%positive (Some 2%positive) CLICK 0 Ex.s_two =
    Some (tt, traced Ex.s_two [EventLock 2%positive (Some 2%positive) CLICK;
                               EventLock 1%positive (Some 2%positive) CLICK])
  /\ exists l,
       traced Ex.s_two [EventLock 2%positive (Some 2%positive) CLICK;
                        EventLock 1%positive (Some 2%positive) CLICK]
       = traced Ex.s_two (EventLock 2%positive (Some 2%positive) CLICK :: l).
Proof.
  split; [vm_compute; reflexivity|].
  apply (WindowEvent_changes_trace_only 1 2%positive (Some 2%positive) CLICK 0 Ex.s_two).
  vm_compute; reflexivity.
Defined.

Lemma WindowEvent_stops_witness :
  heap Ex.s_hidden !! 1%positive = Some Ex.hidden_dirty
  /\ (CLICK <> CLICK \/ parent Ex.hidden_dirty = None)
  /\ WindowEvent 0 1%positive None CLICK 0 Ex.s_hidden =
       Some (tt, traced Ex.s_hidden [EventLock 1%positive None CLICK]).
Proof.
  split; [reflexivity|]. split; [right; reflexivity|].
  apply (WindowEvent_stops 0 1%positive None CLICK 0 Ex.s_hidden Ex.hidden_dirty);
    [reflexivity|right; reflexivity].
Defined.

Lemma GetNextEnabled_first_enabled_witness :
  following 2 (heap Ex.s_row) 2%positive = Some [3%positive; 4%positive]
  /\ GetNextEnabled 2 (heap Ex.s_row) 2%positive =
       Some (List.find (enabled_at (heap Ex.s_row)) [3%positive; 4%positive])
  /\ List.find (enabled_at (heap Ex.s_row)) [3%positive; 4%positive] = Some 4%positive.
Proof.
  split; [reflexivity|]. split; [|reflexivity].
  apply (GetNextEnabled_first_enabled 2 (heap Ex.s_row) 2%positive
           [3%positive; 4%positive]).
  reflexivity.
Defined.

Lemma IsChildOf_ancestors_witness :
  heap Ex.s_two !! 2%positive = Some Ex.button
  /\ depth 1 (heap Ex.s_two) 2%positive = Some 1%nat
  /\ (IsChildOf 1 (heap Ex.s_two) 2%positive (Some 1%positive) =
        Some (bool_decide (1%positive ∈ tail (ancestors 1 (heap Ex.s_two) 2%positive)))
      /\ IsChildOf 1 (heap Ex.s_two) 2%positive None = Some false
      /\ IsChildOf 1 (heap Ex.s_two) 2%positive (Some 2%positive) = Some false
      /\ (forall p, GetParent Ex.button = Some p ->
                    IsChildOf 1 (heap Ex.s_two) 2%positive (Some p) = Some true)).
Proof.
  split; [reflexivity|]. split; [reflexivity|].
  apply (IsChildOf_ancestors 1 (heap Ex.s_two) 2%positive Ex.button 1%nat
           (Some 1%positive)); reflexivity.
Defined.

Lemma SetBackColor_GetBackColor_witness :
  heap Ex.s_focus !! 2%positive = Some Ex.button
  /\ ((forall clr : color_t, exists s' w',
         SetBackColor 2%positive clr Ex.s_focus = Some (tt, s')
         /\ heap s' !! 2%positive = Some w'
         /\ GetBackColor s' 2%positive w' = clr
         /\ IsInvalid w' = true
         /\ trace s' = trace Ex.s_focus ++ [gui_invalidate])
      /\ (forall sch : color_scheme, exists s' w',
         SetBackColor_scheme 2%positive sch Ex.s_focus = Some (tt, s')
         /\ heap s' !! 2%positive = Some w'
         /\ GetBackColor s' 2%positive w' =
              sch (IsFocused Ex.s_focus 2%positive) (IsShadowed Ex.button)
         /\ IsInvalid w' = true
         /\ trace s' = trace Ex.s_focus ++ [gui_invalidate])).
Proof.
  split; [reflexivity|].
  apply (SetBackColor_GetBackColor 2%positive Ex.s_focus Ex.button). reflexivity.
Defined.

Lemma SetRect_GetRect_witness :
  heap Ex.s_rel !! 2%positive = Some Ex.button
  /\ depth 1 (heap Ex.s_rel) 2%positive = Some 1%nat
  /\ exists s' r1,
       SetRect 1 2%positive (Geom.mkRect 5 5 10 10) Ex.s_rel = Some (tt, s')
       /\ heap s' = <[2%positive := with_rect r1 Ex.button]> (heap Ex.s_rel)
       /\ focused_ptr s' = focused_ptr Ex.s_rel
       /\ trace s' = trace Ex.s_rel
       /\ match GetParent Ex.button with
          | None => r1 = Geom.mkRect 5 5 10 10
                    /\ GetRect 1 (heap s') 2%positive = Some (Geom.mkRect 5 5 10 10)
          | Some p =>
              TransformRect 1 (heap Ex.s_rel) p (Geom.mkRect 5 5 10 10) = Some r1
              /\ is_Some (TransformRect 1 (heap Ex.s_rel) p r1)
              /\ GetRect 1 (heap s') 2%positive = TransformRect 1 (heap Ex.s_rel) p r1
          end.
Proof.
  split; [reflexivity|]. split; [reflexivity|].
  apply (SetRect_GetRect 1 2%positive (Geom.mkRect 5 5 10 10) Ex.s_rel Ex.button 1%nat);
    reflexivity.
Defined.

Lemma UnregisterSubWin_not_parent_witness :
  heap Ex.s_two !! 1%positive = Some Ex.screen
  /\ GetParent Ex.screen <> Some 2%positive
  /\ UnregisterSubWin unregisterSubWin 1 2%positive 1%positive Ex.s_two
       = Some (tt, Ex.s_two).
Proof.
  split; [reflexivity|]. split; [discriminate|].
  apply (UnregisterSubWin_not_parent unregisterSubWin 1 2%positive 1%positive Ex.s_two
           Ex.screen); [reflexivity|discriminate].
Defined.

Lemma RegisterSubWin_base_returns_false_witness :
  GetRect 1 (heap Ex.s_rel) 1%positive = Some (Geom.mkRect 20 30 200 200)
  /\ GetRect 1 (heap Ex.s_rel) 2%positive = Some (Geom.mkRect 30 40 100 40)
  /\ heap Ex.s_rel !! 1%positive = Some Ex.rel_screen
  /\ heap Ex.s_rel !! 2%positive = Some Ex.button
  /\ exists s',
       RegisterSubWin registerSubWin 1 1%positive 2%positive Ex.s_rel = Some (false, s')
       /\ focused_ptr s' = focused_ptr Ex.s_rel
       /\ if Contain (Geom.mkRect 20 30 200 200) (Geom.mkRect 30 40 100 40)
          then trace s' = trace Ex.s_rel ++ [Screens_ResetTimeout]
               /\ heap s' =
                    (if has_relative_subwins (flags Ex.rel_screen)
                     then <[2%positive := with_flags (set_has_relative_subwins true)
                                            Ex.button]> (heap Ex.s_rel)
                     else heap Ex.s_rel)
          else s' = Ex.s_rel.
Proof.
  do 4 (split; [reflexivity|]).
  apply (RegisterSubWin_base_returns_false 1 1%positive 2%positive Ex.s_rel
           (Geom.mkRect 20 30 200 200) (Geom.mkRect 30 40 100 40) Ex.rel_screen Ex.button);
    reflexivity.
Defined.

Lemma new_then_delete_witness :
  heap Ex.s_two !! 3%positive = None
  /\ focused_ptr Ex.s_two <> Some 3%positive
  /\ chain_ok 2 (heap Ex.s_two) (Some 1%positive) = true
  /\ exists s1 s2,
       window_t_ctor registerSubWin 0 2 3%positive (Some 1%positive) Ex.button_rect
         normal yes Ex.s_two = Some (tt, s1)
       /\ destroy unregisterSubWin 2 3%positive s1 = Some (tt, s2)
       /\ focused_ptr s2 = focused_ptr Ex.s_two
       /\ heap s2 =
            match heap Ex.s_two !! 1%positive with
            | Some pw =>
                if IsEmpty (rect pw) then heap Ex.s_two
                else <[1%positive := with_flags (set_invalid true) pw]> (heap Ex.s_two)
            | None => heap Ex.s_two
            end.
Proof.
  split; [reflexivity|]. split; [discriminate|]. split; [reflexivity|].
  apply (new_then_delete 0 2 3%positive (Some 1%positive) Ex.button_rect normal yes
           Ex.s_two); [reflexivity|discriminate|reflexivity].
Defined.

Lemma GetCapturedWindow_visible_flag_witness :
  heap Ex.s_hidden !! 1%positive = Some Ex.hidden_dirty
  /\ exists res,
       GetCapturedWindow 1%positive Ex.s_hidden = Some (res, Ex.s_hidden)
       /\ (res = Some 1%positive <-> HasVisibleFlag Ex.hidden_dirty = true)
       /\ (res = None <-> HasVisibleFlag Ex.hidden_dirty = false)
       /\ (IsVisible Ex.hidden_dirty = true -> res = Some 1%positive)
       /\ (HasVisibleFlag Ex.hidden_dirty = true ->
           IsHiddenBehindDialog Ex.hidden_dirty = true ->
           res = Some 1%positive /\ IsVisible Ex.hidden_dirty = false)
       /\ (HasVisibleFlag Ex.hidden_dirty = false ->
           HasEnforcedCapture Ex.hidden_dirty = true ->
           res = None /\ IsCapturable Ex.hidden_dirty = true).
Proof.
  split; [reflexivity|].
  apply (GetCapturedWindow_visible_flag 1%positive Ex.s_hidden Ex.hidden_dirty).
  reflexivity.
Defined.

Lemma HideBehindDialog_then_ShowAfterDialog_witness :
  heap Ex.s_two !! 1%positive = Some Ex.screen
  /\ IsHiddenBehindDialog Ex.screen = false
  /\ bind (HideBehindDialog 1%positive) (fun _ => ShowAfterDialog 1%positive) Ex.s_two =
       Some (tt, touched Ex.s_two 1%positive (with_flags (set_invalid true)) Ex.screen
                   [gui_invalidate; gui_invalidate]).
Proof.
  split; [reflexivity|]. split; [reflexivity|].
  apply (HideBehindDialog_then_ShowAfterDialog 1%positive Ex.s_two Ex.screen);
    reflexivity.
Defined.

Lemma Invalidate_then_Draw_witness :
  heap Ex.s_two !! 1%positive = Some Ex.screen
  /\ GetRect 0 (heap Ex.s_two) 1%positive = Some Ex.screen_rect
  /\ IsVisible Ex.screen = true
  /\ Width (rect Ex.screen) <> 0
  /\ Height (rect Ex.screen) <> 0
  /\ bind (Invalidate 1%positive Rect16_ctor) (fun _ => Draw 0 1%positive) Ex.s_two =
       Some (tt, touched Ex.s_two 1%positive (with_flags (set_invalid false)) Ex.screen
                   [gui_invalidate;
                    display_FillRect Ex.screen_rect
                      (GetBackColor Ex.s_two 1%positive Ex.screen)]).
Proof.
  do 3 (split; [reflexivity|]). split; [discriminate|]. split; [discriminate|].
  apply (Invalidate_then_Draw 0 1%positive Ex.s_two Ex.screen Ex.screen_rect);
    [reflexivity..|discriminate|discriminate].
Defined.
